(** * CSP multi-ticker statistics pipeline

    Shallow embedding of [csp_multi_ticker_websocket_parquet.py]: the
    trade and statistics structs, the nodes [combine_ticker_statistics],
    [dict_to_list] and [trades_tracker], the per-ticker graph
    [ticker_statistics_subgraph] and the top-level graph
    [crypto_multi_ticker_websocket_pipeline], run one engine cycle at a
    time.

    Python floats are IEEE-754 binary64 numbers and are modelled by Rocq's
    primitive floats, so NaN, infinities and rounding are the real ones.
    Engine and wall-clock instants are integers (microseconds). *)

From Stdlib Require Import ZArith List String Bool Lia Sorted.
From Stdlib Require Import Floats.
Import ListNotations.

Open Scope Z_scope.

(** ** Time *)

Definition datetime := Z.
Definition timedelta := Z.

Definition seconds (n : Z) : timedelta := n * 1000000.
Definition minutes (n : Z) : timedelta := seconds (60 * n).

Definition float_of_Z (z : Z) : float :=
  if z <? 0 then PrimFloat.opp (PrimFloat.of_uint63 (Uint63.of_Z (- z)))
  else PrimFloat.of_uint63 (Uint63.of_Z z).

(** [datetime.timestamp()]: seconds since the epoch, as a float. *)
Definition datetime_timestamp (d : datetime) : float :=
  PrimFloat.div (float_of_Z d) (float_of_Z 1000000).

(** ** The two structs *)

Module CryptoTradeData.
Record t := mk {
    pair : string;
    price : float;
    size : float;
    volume : float;
    timestamp : float;
    trade_time : datetime;
    sellorbuy : Z;
    exchange : Z
  }.
End CryptoTradeData.

Module TickerStatisticsData.
Record t := mk {
    pair : string;
    trade_count : float;
    VWA : float;
    EWA60s : float;
    EWA120s : float;
    EWA180s : float;
    return_1min : float;
    volitality_60s : float;
    volitality_MA5mins : float;
    volitality_stddev : float;
    sell_count : float;
    buy_count : float;
    buy_pressure : float;
    volumn_60s : float;
    timestamp : float;
    trade_time : datetime
  }.
End TickerStatisticsData.

Definition Trade : Type := CryptoTradeData.t.
Definition Stats : Type := TickerStatisticsData.t.

(** ** The framework's primitives

    The csp library is not part of the repository; the operators the
    graph uses are written out here after their documented behaviour.  A
    time series is seen through its last value: [None] while the series
    has never ticked ([csp.valid] is false), [Some v] afterwards. *)

Module csp.

Definition valid {T : Type} (x : option T) : bool :=
    match x with Some _ => true | None => false end.

  (** A binary arithmetic node ticks whenever one of its inputs ticks and
      both are valid, so its last value is the operation applied to the
      last values of its inputs, and it is valid exactly when both are. *)
Definition lift2 (op : float -> float -> float) (x y : option float)
    : option float :=
    match x, y with
    | Some a, Some b => Some (op a b)
    | _, _ => None
    end.

Definition add := lift2 PrimFloat.add.
Definition sub := lift2 PrimFloat.sub.
Definition divide := lift2 PrimFloat.div.

  (** [csp.diff(x, lag)]: [x] minus its own value [lag] ago; [x_lagged] is
      the delayed series, not valid before a sample that old exists. *)
Definition diff (x x_lagged : option float) : option float :=
    sub x x_lagged.

  (** [csp.timer(interval)] created at [start]: ticks at
      [start + interval], [start + 2*interval], ... *)
Definition timer (interval : timedelta) (start now : datetime) : bool :=
    (start <? now) && ((now - start) mod interval =? 0).

End csp.

(** ** [combine_ticker_statistics]

    [trigger] is the ticked flag of the trigger input in this cycle and
    [now] the engine time; the fifteen series are given by their last
    values. *)

Definition combine_ticker_statistics
    (pair : string)
    (trade_count VWA EWA60s EWA120s EWA180s return_1min
     volitality_60s volitality_MA5mins volitality_stddev
     sell_count buy_count buy_pressure volumn_60s : option float)
    (latest_trade_time : option datetime)
    (trigger : bool) (now : datetime) : option Stats :=
  if trigger then
    match trade_count, VWA, EWA60s, EWA120s, EWA180s, return_1min,
          volitality_60s, volitality_MA5mins, volitality_stddev,
          sell_count, buy_count, buy_pressure, volumn_60s with
    | Some tc, Some vwa, Some e60, Some e120, Some e180, Some ret,
      Some v60, Some vma, Some vsd, Some sc, Some bc, Some bp, Some vol =>
        let '(trade_time_to_use, timestamp_to_use) :=
          match latest_trade_time with
          | Some ltt => (ltt, datetime_timestamp ltt)
          | None => (now, datetime_timestamp now)
          end in
        Some (TickerStatisticsData.mk pair tc vwa e60 e120 e180 ret
                v60 vma vsd sc bc bp vol
                timestamp_to_use trade_time_to_use)
    | _, _, _, _, _, _, _, _, _, _, _, _, _ => None
    end
  else None.

(** ** Rolling statistics over a time window

    [csp.stats.count] and [csp.stats.sum] with a time [interval], a
    [min_window] and a [trigger].  A window holds the samples with the
    engine time at which each arrived, newest last.  On a trigger tick at
    [now] the node yields a value once [min_window] has elapsed since the
    series started, computed over the samples of the last [interval]. *)

Module stats.

Definition window := list (datetime * float).

Definition in_interval (interval : timedelta) (now : datetime)
      (s : datetime * float) : bool :=
    (now - interval <? fst s) && (fst s <=? now).

Definition live (interval : timedelta) (now : datetime) (w : window)
    : list float :=
    map snd (List.filter (in_interval interval now) w).

Definition min_hit (min_window : timedelta) (start now : datetime) : bool :=
    min_window <=? now - start.

Definition count (interval min_window : timedelta) (start now : datetime)
      (w : window) : option float :=
    if min_hit min_window start now
    then Some (float_of_Z (Z.of_nat (List.length (live interval now w))))
    else None.

Definition sum (interval min_window : timedelta) (start now : datetime)
      (w : window) : option float :=
    if min_hit min_window start now
    then Some (fold_left PrimFloat.add (live interval now w) (float_of_Z 0))
    else None.

  (** Last value of a triggered node: replaced when the trigger ticks and
      the node yields, kept otherwise. *)
Definition on_trigger (trigger : bool) (fresh last : option float)
    : option float :=
    if trigger then match fresh with Some v => Some v | None => last end
    else last.

End stats.

(** ** The series the library computes inside a sub-graph

    Last values, in the current cycle, of the series whose arithmetic
    belongs to the library: the side sums, the weighted mean, its delayed
    copy, the exponential averages and the volatility statistics. *)

Module Feeds.
Record t := mk {
    count_sell : option float;
    count_buy : option float;
    VWA : option float;
    VWA_1min_ago : option float;
    EWA60s : option float;
    EWA120s : option float;
    EWA180s : option float;
    volitality_60s : option float;
    volitality_MA5mins : option float;
    volitality_stddev : option float
  }.
End Feeds.

(** ** [ticker_statistics_subgraph] *)

Record PipelineState := mkPipeline {
  ps_pair : string;
  ps_created : datetime;
  ps_trades : list (datetime * Trade);
  ps_trade_count : option float;
  ps_volumn_sum_1min : option float;
  ps_out : option Stats
}.

Definition new_pipeline (pair : string) (now : datetime) : PipelineState :=
  mkPipeline pair now [] None None None.

Definition append_tick (now : datetime) (tick : option Trade)
    (trades : list (datetime * Trade)) : list (datetime * Trade) :=
  match tick with
  | Some tr => trades ++ [(now, tr)]
  | None => trades
  end.

Definition latest_trade_time_of (trades : list (datetime * Trade))
  : option datetime :=
  match rev trades with
  | (_, tr) :: _ => Some (CryptoTradeData.trade_time tr)
  | [] => None
  end.

Definition return_1min_of (VWA VWA_1min_ago : option float) : option float :=
  let diff_1min_ago := csp.diff VWA VWA_1min_ago in
  csp.divide diff_1min_ago (csp.add VWA diff_1min_ago).

Definition buy_pressure_of (count_buy count_sell : option float)
  : option float :=
  let total_count := csp.add count_buy count_sell in
  csp.divide count_buy total_count.

(** One engine cycle of the sub-graph of one ticker.  [tick] is this
    cycle's tick of the attached [trades] series, [timer1s] and [timer1m]
    the ticked flags of the two timers passed in by the caller. *)
Definition ticker_statistics_subgraph
    (st : PipelineState) (tick : option Trade)
    (timer1s timer1m : bool) (f : Feeds.t) (now : datetime)
  : PipelineState * option Stats :=
  let pair := ps_pair st in
  let trades := append_tick now tick (ps_trades st) in
  (* timer1m = csp.timer(timedelta(minutes=1)): the argument is rebound *)
  let timer1m := csp.timer (minutes 1) (ps_created st) now in
  let trade_count :=
    stats.on_trigger timer1s
      (stats.count (seconds 60) (seconds 1) (ps_created st) now
         (map (fun s => (fst s, CryptoTradeData.price (snd s))) trades))
      (ps_trade_count st) in
  let volumn_sum_1min :=
    stats.on_trigger timer1s
      (stats.sum (seconds 60) (seconds 5) (ps_created st) now
         (map (fun s => (fst s, CryptoTradeData.volume (snd s))) trades))
      (ps_volumn_sum_1min st) in
  let return_1min := return_1min_of (Feeds.VWA f) (Feeds.VWA_1min_ago f) in
  let buy_pressure := buy_pressure_of (Feeds.count_buy f) (Feeds.count_sell f) in
  let latest_trade_time := latest_trade_time_of trades in
  let out :=
    combine_ticker_statistics pair trade_count (Feeds.VWA f)
      (Feeds.EWA60s f) (Feeds.EWA120s f) (Feeds.EWA180s f)
      return_1min (Feeds.volitality_60s f) (Feeds.volitality_MA5mins f)
      (Feeds.volitality_stddev f)
      (Feeds.count_sell f) (Feeds.count_buy f) buy_pressure volumn_sum_1min
      latest_trade_time timer1m now in
  (mkPipeline pair (ps_created st) trades trade_count volumn_sum_1min
     (match out with Some r => Some r | None => ps_out st end),
   out).

(** ** [dict_to_list] and [trades_tracker]

    An input that ticks in the cycle is [Some] of its value. *)

Definition dict_to_list (stats_dict : option (list (string * Stats)))
  : option (list Stats) :=
  match stats_dict with
  | Some d => Some (map snd d)
  | None => None
  end.

Definition trades_tracker (trades_all : option Trade) (timer : bool)
  : option Trade :=
  if timer && csp.valid trades_all then trades_all else None.

(** ** Dynamic baskets

    A dynamic basket is a dictionary from keys to sub-graph instances,
    kept in insertion order. *)

Module dynamic.

Definition has_key {V : Type} (k : string) (d : list (string * V)) : bool :=
    existsb (fun kv => String.eqb k (fst kv)) d.

  (** [csp.dynamic_demultiplex(x, key)] together with [csp.dynamic]: the
      first tick carrying a key adds the key, which instantiates the
      sub-graph for it; later ticks find the instance. *)
Definition demultiplex {V : Type} (x : option Trade)
      (fresh : string -> V) (d : list (string * V)) : list (string * V) :=
    match x with
    | Some tr =>
        let k := CryptoTradeData.pair tr in
        if has_key k d then d else d ++ [(k, fresh k)]
    | None => d
    end.

  (** Keys added to the basket by this cycle's tick. *)
Definition added {V : Type} (x : option Trade) (d : list (string * V))
    : list string :=
    match x with
    | Some tr =>
        let k := CryptoTradeData.pair tr in
        if has_key k d then [] else [k]
    | None => []
    end.

  (** The tick routed to the element of key [k] ([csp.attach()]). *)
Definition attach (k : string) (x : option Trade) : option Trade :=
    match x with
    | Some tr => if String.eqb (CryptoTradeData.pair tr) k then Some tr else None
    | None => None
    end.

  (** [csp.dynamic_collect]: the dictionary of the elements that ticked
      in this cycle; no tick when none did. *)
Definition collect {V : Type} (outs : list (string * option V))
    : option (list (string * V)) :=
    let ticked :=
      flat_map (fun kv => match snd kv with
                          | Some v => [(fst kv, v)]
                          | None => []
                          end) outs in
    match ticked with
    | [] => None
    | _ :: _ => Some ticked
    end.

  (** [csp.unroll]: the elements of a ticked list, one tick each. *)
Definition unroll {V : Type} (x : option (list V)) : list V :=
    match x with
    | Some l => l
    | None => []
    end.

End dynamic.

(** ** [crypto_multi_ticker_websocket_pipeline] *)

(** [individual_stats.volumn_60s > 1000] *)
Definition above_threshold (r : Stats) : bool :=
  PrimFloat.ltb (float_of_Z 1000) (TickerStatisticsData.volumn_60s r).


Record Engine := mkEngine {
  starttime : datetime;
  trades_all : option Trade;
  registry : list (string * PipelineState);
  created_log : list string;
  trades_table : list Trade;
  stats_table : list Stats;
  trades_writer : list Trade;
  stats_writer : list Stats
}.

Record Cycle := mkCycle {
  now : datetime;
  push : option Trade;
  feeds : string -> Feeds.t
}.

(** What the graph computes in one cycle, edge by edge. *)
Record Edges := mkEdges {
  e_trades_all : option Trade;
  e_trades_flow : option Trade;
  e_ran : list (string * (PipelineState * option Stats));
  e_collected_stats : option (list (string * Stats));
  e_stats_list : option (list Stats);
  e_individual_stats : list Stats;
  e_individual_stats_publish : list Stats
}.

Definition edges (e : Engine) (c : Cycle) : Edges :=
  let timer1s := csp.timer (seconds 1) (starttime e) (now c) in
  let timer1m := csp.timer (minutes 1) (starttime e) (now c) in
  let trades_all :=
    match push c with Some tr => Some tr | None => trades_all e end in
  let trades_flow := trades_tracker trades_all timer1m in
  let demuxed_trades :=
    dynamic.demultiplex (push c) (fun k => new_pipeline k (now c))
      (registry e) in
  let dynamic_statistics :=
    map (fun kv =>
           (fst kv,
            ticker_statistics_subgraph (snd kv)
              (dynamic.attach (fst kv) (push c))
              timer1s timer1m (feeds c (fst kv)) (now c)))
        demuxed_trades in
  let collected_stats :=
    dynamic.collect
      (map (fun r => (fst r, snd (snd r))) dynamic_statistics) in
  let stats_list := dict_to_list collected_stats in
  let individual_stats := dynamic.unroll stats_list in
  let individual_stats_publish :=
    List.filter above_threshold individual_stats in
  mkEdges trades_all trades_flow dynamic_statistics collected_stats
    stats_list individual_stats individual_stats_publish.

Definition opt_list {T : Type} (x : option T) : list T :=
  match x with Some v => [v] | None => [] end.

Definition crypto_multi_ticker_websocket_pipeline (e : Engine) (c : Cycle)
  : Engine :=
  let g := edges e c in
  mkEngine (starttime e)
    (e_trades_all g)
    (map (fun r => (fst r, fst (snd r))) (e_ran g))
    (created_log e ++ dynamic.added (push c) (registry e))
    (* trades_table.publish(trades_flow) *)
    (trades_table e ++ opt_list (e_trades_flow g))
    (* stats_table.publish(individual_stats_publish) *)
    (stats_table e ++ e_individual_stats_publish g)
    (* trades_writer.publish_struct(trades_flow) *)
    (trades_writer e ++ opt_list (e_trades_flow g))
    (* stats_writer.publish_struct(individual_stats) *)
    (stats_writer e ++ e_individual_stats g).

Definition init (start : datetime) : Engine :=
  mkEngine start None [] [] [] [] [] [].

Definition run (e : Engine) (cs : list Cycle) : Engine :=
  fold_left crypto_multi_ticker_websocket_pipeline cs e.

(** The trades pushed by the source during a run, in order. *)
Definition pushed (cs : list Cycle) : list Trade :=
  flat_map (fun c => opt_list (push c)) cs.

(** ** The thirteen metrics of a pipeline

    Their current values after a cycle, in the order of the record's
    fields, and the same fields read back from a record. *)

Definition metrics (st : PipelineState) (f : Feeds.t) : list (option float) :=
  [ ps_trade_count st; Feeds.VWA f; Feeds.EWA60s f; Feeds.EWA120s f;
    Feeds.EWA180s f; return_1min_of (Feeds.VWA f) (Feeds.VWA_1min_ago f);
    Feeds.volitality_60s f; Feeds.volitality_MA5mins f;
    Feeds.volitality_stddev f; Feeds.count_sell f; Feeds.count_buy f;
    buy_pressure_of (Feeds.count_buy f) (Feeds.count_sell f);
    ps_volumn_sum_1min st ].

Definition record_metrics (r : Stats) : list float :=
  [ TickerStatisticsData.trade_count r; TickerStatisticsData.VWA r;
    TickerStatisticsData.EWA60s r; TickerStatisticsData.EWA120s r;
    TickerStatisticsData.EWA180s r; TickerStatisticsData.return_1min r;
    TickerStatisticsData.volitality_60s r;
    TickerStatisticsData.volitality_MA5mins r;
    TickerStatisticsData.volitality_stddev r;
    TickerStatisticsData.sell_count r; TickerStatisticsData.buy_count r;
    TickerStatisticsData.buy_pressure r; TickerStatisticsData.volumn_60s r ].

Definition all_defined (ms : list (option float)) : bool :=
  forallb csp.valid ms.


(** Membership of a float in the closed interval [0,1]; false on NaN. *)
Definition in_unit_interval (v : float) : bool :=
  PrimFloat.leb (float_of_Z 0) v && PrimFloat.leb v (float_of_Z 1).

(** ** Binary64 arithmetic

    Auxiliary notions for reasoning about the rounding of the primitive
    float operations through their specification on [spec_float]. *)

(** The exponent function of the binary64 format. *)
Definition f_fexp (e : Z) : Z := SpecFloat.fexp prec emax e.

(** How far [shr_fexp] shifts a mantissa to the right. *)
Definition shift_of (m e : Z) : Z := Z.max 0 (f_fexp (Zdigits2 m + e) - e).

(** The value of a finite float, scaled by [2^1074] to an integer. *)
Definition val (m e : Z) : Z := m * 2 ^ (e + 1074).

(** Zero or a positive finite number. *)
Definition SF_nonneg_finite (x : spec_float) : bool :=
  match x with
  | S754_zero _ => true
  | S754_finite false _ _ => true
  | _ => false
  end.

(** [x] is neither NaN nor infinite and its sign is not negative. *)
Definition finite_nonneg (x : float) : bool :=
  PrimFloat.leb 0 x && PrimFloat.ltb x infinity.

(** ** Runs and their histories *)

Definition keys {V : Type} (d : list (string * V)) : list string :=
  map fst d.

(** The ticks routed to key [k] in one cycle and over a run, each with
    the engine time of its cycle. *)
Definition tick_of (k : string) (c : Cycle) : list (datetime * Trade) :=
  match dynamic.attach k (push c) with
  | Some tr => [(now c, tr)]
  | None => []
  end.

Definition trades_of (k : string) (cs : list Cycle)
  : list (datetime * Trade) :=
  flat_map (tick_of k) cs.



(** The records the sub-graphs emit in one cycle, in registry order. *)
Definition emitted (ran : list (string * (PipelineState * option Stats)))
  : list Stats :=
  flat_map (fun kr => opt_list (snd (snd kr))) ran.

(** What holds of a registered pipeline after the cycles [cs]. *)
Definition pipeline_ok (cs : list Cycle) (kv : string * PipelineState)
  : Prop :=
  ps_pair (snd kv) = fst kv
  /\ ps_trades (snd kv) = trades_of (fst kv) cs
  /\ ps_trades (snd kv) <> []
  /\ (forall r, ps_out (snd kv) = Some r ->
        TickerStatisticsData.pair r = fst kv).

Definition Inv (cs : list Cycle) (e : Engine) : Prop :=
  NoDup (keys (registry e))
  /\ created_log e = keys (registry e)
  /\ (forall k, In k (keys (registry e))
                <-> In k (map CryptoTradeData.pair (pushed cs)))
  /\ Forall (pipeline_ok cs) (registry e).

(** ** Sample runs

    Concrete trades, feeds and engine schedules for the examples. *)

Module Sample.

Definition trade (pair : string) (price size : float) (side : Z)
      (trade_time : datetime) : Trade :=
    CryptoTradeData.mk pair price size (PrimFloat.mul size price)
      (float_of_Z (trade_time / 1000)) trade_time side 0.

Definition Buy : Z := 2.
Definition Sell : Z := 1.

  (** No library series has a value yet. *)
Definition cold : Feeds.t :=
    Feeds.mk None None None None None None None None None None.

  (** Every library series has a value; the mean price went from 1 to 2. *)
Definition warm : Feeds.t :=
    Feeds.mk (Some 300%float) (Some 900%float) (Some 2%float) (Some 1%float)
      (Some 2%float) (Some 2%float) (Some 2%float)
      (Some 0%float) (Some 0%float) (Some 0%float).

Definition at_time (t : datetime) (x : option Trade) (f : Feeds.t) : Cycle :=
    mkCycle t x (fun _ => f).

  (** One cycle per whole second, from second [first], [n] of them. *)
Definition every_second (first : Z) (n : nat) (f : Feeds.t) : list Cycle :=
    map (fun i => at_time (seconds (first + Z.of_nat i)) None f) (seq 0 n).

Definition A0 : Trade := trade "A" 100%float 1%float Buy 0.
Definition A1 : Trade := trade "A" 102%float 1%float Sell 500000.

  (** Key A trades at 0 s and 0.5 s; then the 1-second timer ticks. *)
Definition two_trades : list Cycle :=
    [ at_time 0 (Some A0) cold; at_time 500000 (Some A1) cold ].

  (** A trades at 0 s; the engine then runs to second 60. *)
Definition one_key : list Cycle :=
    at_time 0 (Some A0) warm :: every_second 1 60 warm.

  (** The two trades of A, then one cycle per second up to second 60. *)
Definition one_minute : list Cycle :=
    two_trades ++ every_second 1 60 cold.



End Sample.

(** ** The Polygon adapter

    [PolygonWebSocketAdapter]: the decoding of a message into a trade,
    the handling of a batch of messages and the start and stop of the
    adapter.  A message reaches [_process_message] as a Python dictionary.  Its
    values are the Python values a decoded message can hold. *)

#[warnings="-register-all"]
Inductive pyval : Type :=
| PyNone
| PyStr (s : string)
| PyInt (z : Z)
| PyFloat (f : float)
| PyList (l : list pyval).

Definition msg_dict : Type := list (string * pyval).

(** [d.get(k)] and [d.get(k, default)]. *)
Fixpoint dict_get (d : msg_dict) (k : string) : option pyval :=
  match d with
  | [] => None
  | (k', v) :: d' => if String.eqb k' k then Some v else dict_get d' k
  end.

Definition get (d : msg_dict) (k : string) : pyval :=
  match dict_get d k with Some v => v | None => PyNone end.

Definition get_default (d : msg_dict) (k : string) (default : pyval) : pyval :=
  match dict_get d k with Some v => v | None => default end.

(** What the conversions of the Python runtime do on text and on
    instants is left to these three functions; [None] stands for a raised
    exception. *)
Record Runtime := mkRuntime {
  float_of_str : string -> option float;
  int_of_str : string -> option Z;
  fromtimestamp : float -> option datetime
}.

(** [float(n)] on an integer: the nearest double, [OverflowError] when
    there is none. *)
Definition float_of_int (z : Z) : option float :=
  let f := SF2Prim (binary_normalize prec emax z 0 false) in
  if PrimFloat.is_infinity f then None else Some f.

(** [int(x)] on a double: truncation towards zero; NaN and the
    infinities raise. *)
Definition int_of_float (f : float) : option Z :=
  match Prim2SF f with
  | S754_zero _ => Some 0
  | S754_finite s m e =>
      Some (cond_Zopp s (if 0 <=? e then Zpos m * 2 ^ e
                         else Zpos m / 2 ^ (- e)))
  | S754_infinity _ | S754_nan => None
  end.

Definition py_float (rt : Runtime) (v : pyval) : option float :=
  match v with
  | PyFloat f => Some f
  | PyInt z => float_of_int z
  | PyStr s => float_of_str rt s
  | PyNone | PyList _ => None
  end.

Definition py_int (rt : Runtime) (v : pyval) : option Z :=
  match v with
  | PyInt z => Some z
  | PyFloat f => int_of_float f
  | PyStr s => int_of_str rt s
  | PyNone | PyList _ => None
  end.

(** [v[0]] *)
Definition py_first (v : pyval) : option pyval :=
  match v with
  | PyList (x :: _) => Some x
  | PyStr (String c _) => Some (PyStr (String c EmptyString))
  | _ => None
  end.

(** A [str] field of a struct accepts a string only. *)
Definition py_str (v : pyval) : option string :=
  match v with
  | PyStr s => Some s
  | _ => None
  end.

Definition is_XT (v : pyval) : bool :=
  match v with
  | PyStr s => String.eqb s "XT"%string
  | _ => false
  end.

Definition bind {A B : Type} (x : option A) (k : A -> option B) : option B :=
  match x with
  | Some a => k a
  | None => None
  end.

Notation "x <- e ;; k" := (bind e (fun x => k))
  (at level 61, e at next level, right associativity).

(** [_process_message]: the trade pushed to the engine, [None] when the
    message is not a trade or an exception is caught. *)
Definition _process_message (rt : Runtime) (msg : msg_dict) : option Trade :=
  if is_XT (get msg "event_type"%string) then
    timestamp_ms <- py_float rt (get msg "timestamp"%string) ;;
    trade_time <- fromtimestamp rt (PrimFloat.div timestamp_ms 1000) ;;
    pair <- py_str (get_default msg "pair"%string (PyStr "UNKNOWN"%string)) ;;
    price <- py_float rt (get_default msg "price"%string (PyFloat 0)) ;;
    size <- py_float rt (get_default msg "size"%string (PyFloat 0)) ;;
    size' <- py_float rt (get msg "size"%string) ;;
    price' <- py_float rt (get msg "price"%string) ;;
    condition <- py_first (get_default msg "conditions"%string (PyList [PyInt 0])) ;;
    sellorbuy <- py_int rt condition ;;
    exchange <- py_int rt (get_default msg "exchange"%string (PyInt 0)) ;;
    Some (CryptoTradeData.mk pair price size (PrimFloat.mul size' price')
            timestamp_ms trade_time sellorbuy exchange)
  else None.

(** [_handle_messages]: the trades pushed for a batch of messages. *)
Definition _handle_messages (rt : Runtime) (running : bool)
    (msgs : list msg_dict) : list Trade :=
  if negb running then []
  else flat_map (fun m => opt_list (_process_message rt m)) msgs.

(** The adapter object: whether it runs, and whether a client and a
    thread have been created. *)
Record PolygonWebSocketAdapter := mkAdapter {
  _running : bool;
  _client : bool;
  _thread : bool
}.

(** What happens inside [start]: creating the client may raise,
    subscribing may raise, or the connection is set up. *)
Inductive connection := ClientFails | SubscribeFails | Connected.

Definition adapter_init : PolygonWebSocketAdapter :=
  mkAdapter false false false.

Definition start (a : PolygonWebSocketAdapter) (c : connection)
  : PolygonWebSocketAdapter :=
  match c with
  | ClientFails => mkAdapter false (_client a) (_thread a)
  | SubscribeFails => mkAdapter false true (_thread a)
  | Connected => mkAdapter true true true
  end.

Definition stop (a : PolygonWebSocketAdapter) : PolygonWebSocketAdapter :=
  mkAdapter false (_client a) (_thread a).

(** Calls made on an adapter, and the trades they push. *)
Inductive call :=
| Start (c : connection)
| Stop
| Messages (msgs : list msg_dict).

Definition call_step (rt : Runtime)
    (s : PolygonWebSocketAdapter * list Trade) (x : call)
  : PolygonWebSocketAdapter * list Trade :=
  match x with
  | Start c => (start (fst s) c, snd s)
  | Stop => (stop (fst s), snd s)
  | Messages msgs =>
      (fst s, snd s ++ _handle_messages rt (_running (fst s)) msgs)
  end.

Definition calls (rt : Runtime) (xs : list call)
  : PolygonWebSocketAdapter * list Trade :=
  fold_left (call_step rt) xs (adapter_init, []).

(** A runtime whose text conversions always raise and whose instants are
    microseconds, and a complete trade message. *)
Definition sample_runtime : Runtime :=
  mkRuntime (fun _ => None) (fun _ => None)
    (fun f => int_of_float (PrimFloat.mul f 1000000)).

Definition sample_message : msg_dict :=
  [ ("event_type"%string, PyStr "XT"); ("pair"%string, PyStr "BTC-USD");
    ("price"%string, PyFloat 100.5); ("size"%string, PyInt 2);
    ("timestamp"%string, PyInt 1700000000123);
    ("conditions"%string, PyList [PyInt 2]); ("exchange"%string, PyInt 1) ].

(** The most recent trade pushed during a run. *)
Definition latest_pushed (cs : list Cycle) : option Trade :=
  hd_error (rev (pushed cs)).

(** * Properties *)

(** ** The combining node *)

Ltac split_option x :=
  destruct x; [ | simpl; try reflexivity; try discriminate ].

Lemma combine_ticker_statistics_valid :
  forall pair tc vwa e60 e120 e180 ret v60 vma vsd sc bc bp vol ltt
         trigger now,
    csp.valid (combine_ticker_statistics pair tc vwa e60 e120 e180 ret
                 v60 vma vsd sc bc bp vol ltt trigger now)
    = trigger && all_defined
                   [tc; vwa; e60; e120; e180; ret; v60; vma; vsd; sc; bc;
                    bp; vol].
Proof.
  intros. unfold combine_ticker_statistics, all_defined.
  destruct trigger; simpl; [ | reflexivity ].
  split_option tc. split_option vwa. split_option e60. split_option e120.
  split_option e180. split_option ret. split_option v60. split_option vma.
  split_option vsd. split_option sc. split_option bc. split_option bp.
  split_option vol.
  destruct ltt; reflexivity.
Qed.

Lemma combine_ticker_statistics_fields :
  forall pair tc vwa e60 e120 e180 ret v60 vma vsd sc bc bp vol ltt
         trigger now r,
    combine_ticker_statistics pair tc vwa e60 e120 e180 ret
      v60 vma vsd sc bc bp vol ltt trigger now = Some r ->
    [tc; vwa; e60; e120; e180; ret; v60; vma; vsd; sc; bc; bp; vol]
      = map Some (record_metrics r)
    /\ TickerStatisticsData.pair r = pair
    /\ TickerStatisticsData.trade_time r
       = match ltt with Some t => t | None => now end
    /\ TickerStatisticsData.timestamp r
       = datetime_timestamp (TickerStatisticsData.trade_time r).
Proof.
  intros until r. unfold combine_ticker_statistics.
  destruct trigger; [ | discriminate ].
  destruct tc, vwa, e60, e120, e180, ret; try discriminate.
  destruct v60, vma, vsd, sc, bc, bp, vol; try discriminate.
  destruct ltt; intros H; injection H as <-; simpl; auto.
Qed.

(** ** One cycle of a sub-graph *)

Section Subgraph.

Variables (st : PipelineState) (tick : option Trade).
Variables (timer1s timer1m : bool) (f : Feeds.t) (now : datetime).

Let res := ticker_statistics_subgraph st tick timer1s timer1m f now.

Lemma subgraph_out_valid :
    csp.valid (snd res)
    = csp.timer (minutes 1) (ps_created st) now
      && all_defined (metrics (fst res) f).
  Proof.
    unfold res, ticker_statistics_subgraph, metrics. cbn [fst snd].
    rewrite combine_ticker_statistics_valid. reflexivity.
  Qed.

Lemma subgraph_out_fields :
    forall r, snd res = Some r ->
      metrics (fst res) f = map Some (record_metrics r)
      /\ TickerStatisticsData.pair r = ps_pair st
      /\ TickerStatisticsData.trade_time r
         = match latest_trade_time_of (ps_trades (fst res)) with
           | Some t => t
           | None => now
           end
      /\ TickerStatisticsData.timestamp r
         = datetime_timestamp (TickerStatisticsData.trade_time r).
  Proof.
    intros r. unfold res, ticker_statistics_subgraph, metrics.
    cbn [fst snd ps_trades ps_trade_count ps_volumn_sum_1min].
    intros H. apply combine_ticker_statistics_fields in H. exact H.
  Qed.

Lemma subgraph_state :
    ps_pair (fst res) = ps_pair st
    /\ ps_created (fst res) = ps_created st
    /\ ps_trades (fst res) = append_tick now tick (ps_trades st)
    /\ ps_out (fst res)
       = match snd res with Some r => Some r | None => ps_out st end.
  Proof. unfold res, ticker_statistics_subgraph. cbn. auto. Qed.

End Subgraph.

(** ** Emission of a record (C1) *)

(** C1, as stated, fails: at second 61 of [Sample.one_key] the 1-second
    timer ticks and all thirteen metrics of key A are defined, yet the
    sub-graph emits nothing, because the combining node is triggered by
    the sub-graph's own 1-minute timer. *)
Lemma C1_one_second_tick_without_record :
  csp.timer (seconds 1)
    (starttime (run (init 0) Sample.one_key)) (seconds 61) = true
  /\ exists st',
      e_ran (edges (run (init 0) Sample.one_key)
               (Sample.at_time (seconds 61) None Sample.warm))
      = [("A"%string, (st', None))]
      /\ all_defined (metrics st' Sample.warm) = true.
Proof.
  split; [ reflexivity | ].
  eexists. split; [ vm_compute; reflexivity | vm_compute; reflexivity ].
Qed.

(** C1, amended: in each cycle of a per-key pipeline a record is produced
    if and only if the pipeline's own 1-minute timer ticks in that cycle
    and every one of the thirteen metrics has a defined value; the record
    then carries exactly these thirteen values, and in every other cycle
    nothing is emitted. *)
Theorem C1_emission_on_minute_trigger :
  forall st tick timer1s timer1m f now,
    let res := ticker_statistics_subgraph st tick timer1s timer1m f now in
    csp.valid (snd res)
    = csp.timer (minutes 1) (ps_created st) now
      && all_defined (metrics (fst res) f)
    /\ (forall r, snd res = Some r ->
          metrics (fst res) f = map Some (record_metrics r)).
Proof.
  intros st tick timer1s timer1m f t res. split.
  - apply subgraph_out_valid.
  - intros r Hr.
    exact (proj1 (subgraph_out_fields st tick timer1s timer1m f t r Hr)).
Qed.

(** ** The one-minute return (C4) *)



(** ** Dynamic baskets *)

Lemma has_key_In :
  forall (V : Type) k (d : list (string * V)),
    dynamic.has_key k d = true <-> In k (keys d).
Proof.
  intros V k d. unfold dynamic.has_key, keys. rewrite existsb_exists. split.
  - intros [kv [Hin Heq]]. apply String.eqb_eq in Heq. subst k.
    now apply in_map.
  - intros Hin. apply in_map_iff in Hin. destruct Hin as [kv [Heq Hin]].
    exists kv. split; [ exact Hin | ]. apply String.eqb_eq. now symmetry.
Qed.

Lemma keys_demultiplex :
  forall (V : Type) x (fresh : string -> V) d,
    keys (dynamic.demultiplex x fresh d) = keys d ++ dynamic.added x d.
Proof.
  intros V x fresh d. unfold dynamic.demultiplex, dynamic.added, keys.
  destruct x as [tr|]; [ | now rewrite app_nil_r ].
  destruct (dynamic.has_key _ d).
  - now rewrite app_nil_r.
  - now rewrite map_app.
Qed.

Lemma added_cases :
  forall (V : Type) x (d : list (string * V)),
    (dynamic.added x d = []
     /\ forall tr, x = Some tr -> In (CryptoTradeData.pair tr) (keys d))
    \/ (exists tr, x = Some tr
        /\ dynamic.added x d = [CryptoTradeData.pair tr]
        /\ ~ In (CryptoTradeData.pair tr) (keys d)).
Proof.
  intros V x d. unfold dynamic.added. destruct x as [tr|].
  - destruct (dynamic.has_key (CryptoTradeData.pair tr) d) eqn:Hk.
    + left. split; [ reflexivity | ]. intros tr' [= <-].
      now apply has_key_In.
    + right. exists tr. repeat split. intros Hin.
      apply has_key_In in Hin. congruence.
  - left. split; [ reflexivity | discriminate ].
Qed.

Lemma demultiplex_In :
  forall (V : Type) x (fresh : string -> V) d kv,
    In kv (dynamic.demultiplex x fresh d) ->
    In kv d
    \/ (exists tr, x = Some tr /\ kv = (CryptoTradeData.pair tr,
                                         fresh (CryptoTradeData.pair tr))
                   /\ ~ In (CryptoTradeData.pair tr) (keys d)).
Proof.
  intros V x fresh d kv. unfold dynamic.demultiplex.
  destruct x as [tr|]; [ | now left ].
  destruct (dynamic.has_key (CryptoTradeData.pair tr) d) eqn:Hk;
    [ now left | ].
  intros Hin. apply in_app_or in Hin. destruct Hin as [Hin | [<- | []]].
  - now left.
  - right. exists tr. repeat split. intros Hin.
    apply has_key_In in Hin. congruence.
Qed.

Lemma attach_Some :
  forall k x tr,
    dynamic.attach k x = Some tr <-> x = Some tr /\ CryptoTradeData.pair tr = k.
Proof.
  intros k x tr. unfold dynamic.attach. destruct x as [tr'|].
  - destruct (String.eqb (CryptoTradeData.pair tr') k) eqn:He.
    + apply String.eqb_eq in He. split.
      * intros [= <-]. auto.
      * intros [[= <-] _]. reflexivity.
    + apply String.eqb_neq in He. split; [ discriminate | ].
      intros [[= <-] Hk]. contradiction.
  - split; [ discriminate | intros [H _]; discriminate ].
Qed.

(** ** Histories of a run *)

Lemma pushed_snoc :
  forall cs c, pushed (cs ++ [c]) = pushed cs ++ opt_list (push c).
Proof.
  intros cs c. unfold pushed. rewrite flat_map_app. simpl.
  now rewrite app_nil_r.
Qed.

Lemma trades_of_app :
  forall k cs1 cs2, trades_of k (cs1 ++ cs2) = trades_of k cs1 ++ trades_of k cs2.
Proof. intros. unfold trades_of. apply flat_map_app. Qed.

Lemma trades_of_snoc :
  forall k cs c, trades_of k (cs ++ [c]) = trades_of k cs ++ tick_of k c.
Proof.
  intros k cs c. rewrite trades_of_app. unfold trades_of at 2. simpl.
  now rewrite app_nil_r.
Qed.

Lemma append_tick_of :
  forall k c l,
    append_tick (now c) (dynamic.attach k (push c)) l = l ++ tick_of k c.
Proof.
  intros k c l. unfold append_tick, tick_of.
  destruct (dynamic.attach k (push c)); [ reflexivity | ].
  now rewrite app_nil_r.
Qed.

Lemma trades_of_unseen :
  forall k cs,
    ~ In k (map CryptoTradeData.pair (pushed cs)) -> trades_of k cs = [].
Proof.
  intros k cs. induction cs as [|c cs IH]; [ reflexivity | ].
  unfold pushed, trades_of in *. simpl. rewrite map_app. intros Hn.
  rewrite IH by (intros Hin; apply Hn, in_or_app; now right).
  rewrite app_nil_r. unfold tick_of.
  destruct (dynamic.attach k (push c)) as [tr|] eqn:Ha; [ | reflexivity ].
  apply attach_Some in Ha. destruct Ha as [Hp Hk]. exfalso. apply Hn.
  apply in_or_app. left. rewrite Hp. simpl. now left.
Qed.

Lemma run_snoc :
  forall e cs c,
    run e (cs ++ [c]) = crypto_multi_ticker_websocket_pipeline (run e cs) c.
Proof. intros. unfold run. now rewrite fold_left_app. Qed.

Lemma run_app :
  forall e cs1 cs2, run e (cs1 ++ cs2) = run (run e cs1) cs2.
Proof. intros. unfold run. now rewrite fold_left_app. Qed.

(** ** One cycle of the whole graph *)

Section Cycle.

Variables (e : Engine) (c : Cycle).

Let step_one (kv : string * PipelineState) :=
    ticker_statistics_subgraph (snd kv)
      (dynamic.attach (fst kv) (push c))
      (csp.timer (seconds 1) (starttime e) (now c))
      (csp.timer (minutes 1) (starttime e) (now c))
      (feeds c (fst kv)) (now c).

Let demuxed :=
    dynamic.demultiplex (push c) (fun k => new_pipeline k (now c))
      (registry e).

Lemma e_ran_step :
  e_ran (edges e c) = map (fun kv => (fst kv, step_one kv)) demuxed.
Proof. reflexivity. Qed.

Lemma registry_step :
  registry (crypto_multi_ticker_websocket_pipeline e c)
  = map (fun kv => (fst kv, fst (step_one kv))) demuxed.
Proof.
  unfold crypto_multi_ticker_websocket_pipeline. cbn [registry].
  rewrite e_ran_step, map_map. reflexivity.
Qed.


Lemma keys_registry_step :
  keys (registry (crypto_multi_ticker_websocket_pipeline e c))
  = keys (registry e) ++ dynamic.added (push c) (registry e).
Proof.
  rewrite registry_step. unfold keys. rewrite map_map. cbn [fst].
  apply (keys_demultiplex PipelineState).
Qed.

Lemma In_e_ran :
  forall k st' out,
    In (k, (st', out)) (e_ran (edges e c)) ->
    exists st, In (k, st) demuxed /\ step_one (k, st) = (st', out).
Proof.
  intros k st' out. rewrite e_ran_step. intros Hin.
  apply in_map_iff in Hin. destruct Hin as [[k0 st] [Heq Hin]].
  pose proof (f_equal fst Heq) as Hk. pose proof (f_equal snd Heq) as Hs.
  cbn [fst snd] in Hk, Hs. subst k0. exists st. split; assumption.
Qed.

End Cycle.

(** ** The invariant of reachable engines *)

Lemma NoDup_snoc :
  forall (A : Type) (l : list A) (x : A),
    NoDup l -> ~ In x l -> NoDup (l ++ [x]).
Proof.
  intros A l x Hl Hx. induction Hl as [|a l Ha Hl IH]; simpl.
  - constructor; [ intros [] | constructor ].
  - constructor.
    + intros Hin. apply in_app_or in Hin. destruct Hin as [Hin | [<- | []]].
      * contradiction.
      * apply Hx. now left.
    + apply IH. intros Hin. apply Hx. now right.
Qed.

Lemma pipeline_step_ok :
  forall cs c k st timer1s timer1m f,
    ps_pair st = k ->
    ps_trades st = trades_of k cs ->
    (ps_trades st <> []
     \/ exists tr, push c = Some tr /\ CryptoTradeData.pair tr = k) ->
    (forall r, ps_out st = Some r -> TickerStatisticsData.pair r = k) ->
    pipeline_ok (cs ++ [c])
      (k, fst (ticker_statistics_subgraph st (dynamic.attach k (push c))
                 timer1s timer1m f (now c))).
Proof.
  intros cs c k st timer1s timer1m f Hpair Htrades Hne Hout.
  destruct (subgraph_state st (dynamic.attach k (push c))
              timer1s timer1m f (now c)) as (Sp & _ & St & So).
  unfold pipeline_ok. cbn [fst snd]. repeat split.
  - now rewrite Sp.
  - rewrite St, append_tick_of, trades_of_snoc. now rewrite Htrades.
  - rewrite St, append_tick_of. destruct Hne as [Hne | [tr [Hp Hk]]].
    + intros Happ. apply app_eq_nil in Happ. now destruct Happ.
    + unfold tick_of.
      assert (Ha : dynamic.attach k (push c) = Some tr)
        by (apply attach_Some; auto).
      rewrite Ha. intros Happ. apply app_eq_nil in Happ.
      destruct Happ; discriminate.
  - intros r. rewrite So.
    destruct (snd (ticker_statistics_subgraph st _ timer1s timer1m f (now c)))
      as [r'|] eqn:Hr.
    + intros [= <-].
      destruct (subgraph_out_fields _ _ _ _ _ _ r' Hr) as (_ & Hp & _).
      now rewrite Hp.
    + apply Hout.
Qed.

Lemma Inv_init : forall start, Inv [] (init start).
Proof.
  intros start. unfold Inv, init, keys. simpl. repeat split.
  - constructor.
  - intros [].
  - intros [].
  - constructor.
Qed.

Lemma Inv_step :
  forall cs e c,
    Inv cs e -> Inv (cs ++ [c]) (crypto_multi_ticker_websocket_pipeline e c).
Proof.
  intros cs e c (Hnd & Hlog & Hkeys & Hall).
  pose proof (added_cases PipelineState (push c) (registry e)) as Hadd.
  unfold Inv. rewrite keys_registry_step. repeat split.
  - destruct Hadd as [[-> _] | (tr & _ & -> & Hn)].
    + now rewrite app_nil_r.
    + now apply NoDup_snoc.
  - unfold crypto_multi_ticker_websocket_pipeline. cbn [created_log].
    now rewrite Hlog.
  - rewrite pushed_snoc, map_app. intros Hin.
    apply in_or_app. apply in_app_or in Hin. destruct Hin as [Hin | Hin].
    + left. now apply Hkeys.
    + destruct Hadd as [[Ha _] | (tr & Hp & Ha & _)]; rewrite Ha in Hin.
      * destruct Hin.
      * right. rewrite Hp. exact Hin.
  - rewrite pushed_snoc, map_app. intros Hin.
    apply in_or_app. apply in_app_or in Hin. destruct Hin as [Hin | Hin].
    + left. now apply Hkeys.
    + destruct Hadd as [[_ Ha] | (tr & Hp & Ha & _)].
      * left. destruct (push c) as [tr|]; [ | destruct Hin ].
        destruct Hin as [<- | []]. now apply Ha.
      * right. rewrite Ha. rewrite Hp in Hin. exact Hin.
  - rewrite registry_step. apply Forall_map. apply Forall_forall.
    intros [k st] Hin. cbn [fst snd].
    apply demultiplex_In in Hin.
    destruct Hin as [Hin | (tr & Hp & Heq & Hn)].
    + rewrite Forall_forall in Hall. destruct (Hall _ Hin) as (H1 & H2 & H3 & H4).
      cbn [fst snd] in *. apply pipeline_step_ok; auto.
    + injection Heq as -> ->. apply pipeline_step_ok.
      * reflexivity.
      * cbn [ps_trades new_pipeline]. symmetry. apply trades_of_unseen.
        intros Hin. apply Hn. now apply Hkeys.
      * right. now exists tr.
      * cbn [ps_out new_pipeline]. discriminate.
Qed.

Lemma Inv_run : forall start cs, Inv cs (run (init start) cs).
Proof.
  intros start cs. induction cs as [|c cs IH] using rev_ind.
  - apply Inv_init.
  - rewrite run_snoc. now apply Inv_step.
Qed.

(** ** Routing of trades to pipelines (C7) *)

Lemma trades_of_filter :
  forall k cs,
    map snd (trades_of k cs)
    = List.filter (fun tr => String.eqb (CryptoTradeData.pair tr) k)
        (pushed cs).
Proof.
  intros k cs. unfold trades_of, pushed.
  induction cs as [|c cs IH]; [ reflexivity | ].
  simpl. rewrite map_app, filter_app, IH. f_equal.
  unfold tick_of, dynamic.attach, opt_list.
  destruct (push c) as [tr|]; [ | reflexivity ].
  simpl. destruct (String.eqb (CryptoTradeData.pair tr) k); reflexivity.
Qed.

Lemma NoDup_single :
  forall (l : list string) (k : string),
    NoDup l -> l <> [] -> (forall x, In x l -> x = k) -> l = [k].
Proof.
  intros l k Hnd Hne Hall. destruct l as [|a l]; [ contradiction | ].
  assert (a = k) by (apply Hall; now left). subst a.
  destruct l as [|b l]; [ reflexivity | ].
  assert (b = k) by (apply Hall; right; now left). subst b.
  inversion Hnd as [|? ? Hn _]. exfalso. apply Hn. now left.
Qed.

Lemma created_log_step :
  forall e c tr,
    push c = Some tr ->
    (In (CryptoTradeData.pair tr) (keys (registry e)) ->
     created_log (crypto_multi_ticker_websocket_pipeline e c) = created_log e)
    /\ (~ In (CryptoTradeData.pair tr) (keys (registry e)) ->
        created_log (crypto_multi_ticker_websocket_pipeline e c)
        = created_log e ++ [CryptoTradeData.pair tr]).
Proof.
  intros e c tr Hp. unfold crypto_multi_ticker_websocket_pipeline.
  cbn [created_log]. unfold dynamic.added. rewrite Hp.
  destruct (dynamic.has_key (CryptoTradeData.pair tr) (registry e)) eqn:Hk.
  - split; intros H.
    + now rewrite app_nil_r.
    + apply has_key_In in Hk. contradiction.
  - split; intros H.
    + apply has_key_In in H. congruence.
    + reflexivity.
Qed.

(** C7: in every run, a pipeline is created exactly when a trade carries
    a key not seen before and is registered under that key; no key ever
    has two pipelines; each pipeline has received exactly the trades of
    its key, in order, so none is dropped; every record held by a
    pipeline carries the key it is registered under; and any number of
    trades that all carry one unseen key leave exactly one pipeline. *)
Theorem C7_new_key_lifecycle :
  forall start cs,
    let e := run (init start) cs in
    NoDup (created_log e)
    /\ created_log e = keys (registry e)
    /\ (forall k, In k (created_log e)
                  <-> In k (map CryptoTradeData.pair (pushed cs)))
    /\ (forall c tr, push c = Some tr ->
          created_log (crypto_multi_ticker_websocket_pipeline e c)
          = if existsb (String.eqb (CryptoTradeData.pair tr))
                 (map CryptoTradeData.pair (pushed cs))
            then created_log e
            else created_log e ++ [CryptoTradeData.pair tr])
    /\ (forall k st, In (k, st) (registry e) ->
          ps_pair st = k
          /\ map snd (ps_trades st)
             = List.filter
                 (fun tr => String.eqb (CryptoTradeData.pair tr) k)
                 (pushed cs))
    /\ (forall k st r, In (k, st) (registry e) -> ps_out st = Some r ->
          TickerStatisticsData.pair r = k)
    /\ (forall k, pushed cs <> [] ->
          Forall (fun tr => CryptoTradeData.pair tr = k) (pushed cs) ->
          created_log e = [k] /\ List.length (registry e) = 1%nat).
Proof.
  intros start cs e.
  destruct (Inv_run start cs) as (Hnd & Hlog & Hkeys & Hall).
  fold e in Hnd, Hlog, Hkeys, Hall.
  rewrite Forall_forall in Hall.
  assert (Hone : forall k, pushed cs <> [] ->
            Forall (fun tr => CryptoTradeData.pair tr = k) (pushed cs) ->
            created_log e = [k]).
  { intros k Hne Hk. apply NoDup_single.
    - now rewrite Hlog.
    - rewrite Hlog. destruct (pushed cs) as [|tr l] eqn:Hp;
        [ contradiction | ].
      intros Hnil.
      assert (Hin : In (CryptoTradeData.pair tr) (keys (registry e)))
        by (apply Hkeys; simpl; now left).
      rewrite Hnil in Hin. destruct Hin.
    - intros x Hx. rewrite Hlog in Hx. apply Hkeys in Hx.
      apply in_map_iff in Hx. destruct Hx as (tr & <- & Hin).
      rewrite Forall_forall in Hk. now apply Hk. }
  repeat split.
  - now rewrite Hlog.
  - exact Hlog.
  - rewrite Hlog. apply Hkeys.
  - rewrite Hlog. apply Hkeys.
  - intros c tr Hp. destruct (created_log_step e c tr Hp) as [Hseen Hnew].
    destruct (existsb _ _) eqn:Hex.
    + apply Hseen, Hkeys. apply existsb_exists in Hex.
      destruct Hex as (x & Hin & Heq). apply String.eqb_eq in Heq.
      now subst x.
    + apply Hnew. intros Hin. apply Hkeys in Hin.
      assert (Ht : existsb (String.eqb (CryptoTradeData.pair tr))
                     (map CryptoTradeData.pair (pushed cs)) = true)
        by (apply existsb_exists; eexists; split;
            [ exact Hin | apply String.eqb_refl ]).
      congruence.
  - destruct (Hall _ H) as (Hp & _). exact Hp.
  - destruct (Hall _ H) as (_ & Ht & _). cbn [fst snd] in Ht.
    rewrite Ht. apply trades_of_filter.
  - intros k st r Hin Hout. destruct (Hall _ Hin) as (_ & _ & _ & Ho).
    now apply Ho.
  - now apply Hone.
  - assert (Hl : List.length (keys (registry e)) = 1%nat)
      by (rewrite <- Hlog, (Hone k) by assumption; reflexivity).
    unfold keys in Hl. now rewrite length_map in Hl.
Qed.

(** ** Records emitted in a cycle *)

Lemma e_ran_registry :
  forall e c k st' out,
    In (k, (st', out)) (e_ran (edges e c)) ->
    In (k, st') (registry (crypto_multi_ticker_websocket_pipeline e c)).
Proof.
  intros e c k st' out Hin.
  unfold crypto_multi_ticker_websocket_pipeline. cbn [registry].
  apply in_map_iff. exists (k, (st', out)). split; [ reflexivity | exact Hin ].
Qed.



Lemma reached_pipeline_ok :
  forall start cs k st,
    In (k, st) (registry (run (init start) cs)) -> pipeline_ok cs (k, st).
Proof.
  intros start cs k st Hin.
  destruct (Inv_run start cs) as (_ & _ & _ & Hall).
  rewrite Forall_forall in Hall. now apply Hall.
Qed.

(** ** The timestamp of an emitted record (C10) *)


(** ** The collected batch (C2) *)

Lemma unroll_collect :
  forall (V : Type) (outs : list (string * option V)),
    dynamic.unroll
      (match dynamic.collect outs with
       | Some d => Some (map snd d)
       | None => None
       end)
    = flat_map (fun kv => opt_list (snd kv)) outs.
Proof.
  intros V outs. unfold dynamic.collect.
  assert (H : map snd
                (flat_map (fun kv : string * option V =>
                             match snd kv with
                             | Some v => [(fst kv, v)]
                             | None => []
                             end) outs)
              = flat_map (fun kv => opt_list (snd kv)) outs).
  { induction outs as [|[k [v|]] outs IH]; simpl; [ reflexivity | | exact IH ].
    now rewrite IH. }
  destruct (flat_map _ outs) as [|x l] eqn:Hf.
  - simpl in H. now rewrite <- H.
  - simpl. exact H.
Qed.

Lemma batch_is_emitted :
  forall e c,
    dynamic.unroll (e_stats_list (edges e c)) = emitted (e_ran (edges e c)).
Proof.
  intros e c. unfold edges. cbn [e_stats_list e_ran]. unfold dict_to_list.
  rewrite unroll_collect. unfold emitted. rewrite flat_map_concat_map, map_map.
  now rewrite <- flat_map_concat_map.
Qed.








(** ** What the sinks receive (C3, C5) *)

Lemma sinks_step :
  forall e c,
    let e' := crypto_multi_ticker_websocket_pipeline e c in
    let g := edges e c in
    trades_table e' = trades_table e ++ opt_list (e_trades_flow g)
    /\ trades_writer e' = trades_writer e ++ opt_list (e_trades_flow g)
    /\ stats_table e'
       = stats_table e ++ List.filter above_threshold (e_individual_stats g)
    /\ stats_writer e' = stats_writer e ++ e_individual_stats g.
Proof. intros e c. cbv zeta. repeat split. Qed.

Lemma sinks_run :
  forall start cs,
    trades_writer (run (init start) cs) = trades_table (run (init start) cs)
    /\ stats_table (run (init start) cs)
       = List.filter above_threshold (stats_writer (run (init start) cs)).
Proof.
  intros start cs. induction cs as [|c cs [IHt IHs]] using rev_ind.
  - split; reflexivity.
  - rewrite run_snoc.
    destruct (sinks_step (run (init start) cs) c) as (H1 & H2 & H3 & H4).
    rewrite H1, H2, H3, H4, filter_app, IHt, IHs. split; reflexivity.
Qed.

(** C3: the statistics reach the durable sink unfiltered, and the live
    sink gets the per-minute sample of the trades; but the durable sink is
    handed that same sample, not the source's stream: of the two trades
    pushed in [Sample.one_minute] only the later one is written. *)
Theorem C3_durable_trades_are_the_minute_sample :
  (forall start cs,
     trades_writer (run (init start) cs) = trades_table (run (init start) cs))
  /\ (forall e c,
        e_individual_stats (edges e c) = dynamic.unroll (e_stats_list (edges e c))
        /\ stats_writer (crypto_multi_ticker_websocket_pipeline e c)
           = stats_writer e ++ e_individual_stats (edges e c))
  /\ pushed Sample.one_minute = [Sample.A0; Sample.A1]
  /\ trades_writer (run (init 0) Sample.one_minute) = [Sample.A1]
  /\ trades_table (run (init 0) Sample.one_minute) = [Sample.A1].
Proof.
  split; [ intros; apply sinks_run | ].
  split; [ intros; split; reflexivity | ].
  repeat split; vm_compute; reflexivity.
Qed.

(** C5: every record forwarded to the live sink has [volumn_60s]
    strictly above 1000; every record of a batch is written to the
    durable sink whatever its volume; and what the live sink receives, in
    a cycle and over a whole run, is the above-threshold part of what the
    durable sink receives, hence contained in it. *)
Theorem C5_filtering_law :
  forall start cs c,
    let e := run (init start) cs in
    let g := edges e c in
    let e' := crypto_multi_ticker_websocket_pipeline e c in
    Forall (fun r => PrimFloat.ltb (float_of_Z 1000)
                       (TickerStatisticsData.volumn_60s r) = true)
      (e_individual_stats_publish g)
    /\ e_individual_stats g = emitted (e_ran g)
    /\ e_individual_stats_publish g
       = List.filter above_threshold (e_individual_stats g)
    /\ incl (e_individual_stats_publish g) (e_individual_stats g)
    /\ stats_table e' = stats_table e ++ e_individual_stats_publish g
    /\ stats_writer e' = stats_writer e ++ e_individual_stats g
    /\ Forall (fun r => PrimFloat.ltb (float_of_Z 1000)
                          (TickerStatisticsData.volumn_60s r) = true)
         (stats_table e)
    /\ stats_table e = List.filter above_threshold (stats_writer e)
    /\ incl (stats_table e) (stats_writer e).
Proof.
  intros start cs c e g e'.
  assert (Hf : forall l, Forall (fun r => PrimFloat.ltb (float_of_Z 1000)
                          (TickerStatisticsData.volumn_60s r) = true)
                           (List.filter above_threshold l)).
  { intros l. apply Forall_forall. intros r Hin.
    apply filter_In in Hin. exact (proj2 Hin). }
  assert (Hi : forall l, incl (List.filter above_threshold l) l).
  { intros l r Hin. apply filter_In in Hin. exact (proj1 Hin). }
  destruct (sinks_run start cs) as [_ Hs]. fold e in Hs.
  repeat split.
  - apply Hf.
  - apply batch_is_emitted.
  - apply Hi.
  - rewrite Hs. apply Hf.
  - exact Hs.
  - rewrite Hs. apply Hi.
Qed.

(** ** Warm-up of the rolling statistics (C8) *)

Lemma volumn_sum_1min_needs_5s :
  forall st tick timer1s timer1m f t,
    ps_volumn_sum_1min st = None ->
    t - ps_created st < seconds 5 ->
    ps_volumn_sum_1min
      (fst (ticker_statistics_subgraph st tick timer1s timer1m f t)) = None.
Proof.
  intros st tick timer1s timer1m f t Hnone Hlt.
  unfold ticker_statistics_subgraph. cbn [fst ps_volumn_sum_1min].
  unfold stats.on_trigger, stats.sum, stats.min_hit.
  destruct (Z.leb_spec (seconds 5) (t - ps_created st)); [ lia | ].
  rewrite Hnone. now destruct timer1s.
Qed.

Lemma trade_count_after_1s :
  forall st tick timer1m f t,
    seconds 1 <= t - ps_created st ->
    csp.valid
      (ps_trade_count
         (fst (ticker_statistics_subgraph st tick true timer1m f t))) = true.
Proof.
  intros st tick timer1m f t Hle.
  unfold ticker_statistics_subgraph. cbn [fst ps_trade_count].
  unfold stats.on_trigger, stats.count, stats.min_hit.
  destruct (Z.leb_spec (seconds 1) (t - ps_created st)); [ | lia ].
  reflexivity.
Qed.

(** C8: key A is fresh and trades at 0 s (price 100, size 1, Buy) and at
    0.5 s (price 102, size 1, Sell); after the 1-second trigger at 1 s,
    [volumn_60s] is undefined, its 5-second minimum window not being met,
    while [trade_count] is defined and counts the two trades. *)
Theorem C8_differing_warm_up :
  map (fun kv => (fst kv, ps_trade_count (snd kv),
                  ps_volumn_sum_1min (snd kv)))
    (registry
       (run (init 0)
          (Sample.two_trades
           ++ [Sample.at_time (seconds 1) None Sample.cold])))
  = [("A"%string, Some 2%float, None)].
Proof. vm_compute. reflexivity. Qed.

(** ** The trade time of a pipeline (C9) *)

Lemma latest_trade_time_of_app :
  forall l1 l2,
    latest_trade_time_of (l1 ++ l2)
    = match latest_trade_time_of l2 with
      | Some t => Some t
      | None => latest_trade_time_of l1
      end.
Proof.
  intros l1 l2. unfold latest_trade_time_of. rewrite rev_app_distr.
  destruct (rev l2) as [|[t tr] l]; reflexivity.
Qed.













(** ** Rounding of binary64 sums and quotients *)

Lemma f_fexp_eq : forall e, f_fexp e = Z.max (e - 53) (-1074).
Proof. reflexivity. Qed.

Lemma digits2_pos_bounds :
  forall p, 2 ^ (Zpos (digits2_pos p) - 1) <= Zpos p < 2 ^ Zpos (digits2_pos p).
Proof.
  induction p as [p IH|p IH|]; cbn [digits2_pos].
  - rewrite Pos2Z.inj_succ.
    replace (Z.succ (Zpos (digits2_pos p)) - 1) with (Z.succ (Zpos (digits2_pos p) - 1)) by lia.
    rewrite !Z.pow_succ_r by lia. lia.
  - rewrite Pos2Z.inj_succ.
    replace (Z.succ (Zpos (digits2_pos p)) - 1) with (Z.succ (Zpos (digits2_pos p) - 1)) by lia.
    rewrite !Z.pow_succ_r by lia. lia.
  - simpl. lia.
Qed.

Lemma Zdigits2_bounds :
  forall m, 0 < m -> 2 ^ (Zdigits2 m - 1) <= m < 2 ^ Zdigits2 m.
Proof.
  intros [|p|p] Hm; try lia. apply digits2_pos_bounds.
Qed.

Lemma Zdigits2_nonneg : forall m, 0 <= Zdigits2 m.
Proof. intros [|p|p]; simpl; lia. Qed.

Lemma Zdigits2_le : forall m k, 0 <= m -> 0 <= k -> m < 2 ^ k -> Zdigits2 m <= k.
Proof.
  intros m k Hm Hk Hlt. destruct (Z.eq_dec m 0) as [->|Hn]; [ simpl; lia | ].
  destruct (Zdigits2_bounds m ltac:(lia)) as [Hlo _].
  destruct (Z_le_gt_dec (Zdigits2 m) k) as [H|H]; [ exact H | exfalso ].
  assert (2 ^ k <= 2 ^ (Zdigits2 m - 1)) by (apply Z.pow_le_mono_r; lia).
  lia.
Qed.

(** *** Right shifts *)

Lemma iter_pos_nat :
  forall (A : Type) (f : A -> A) p x,
    iter_pos f p x = Nat.iter (Pos.to_nat p) f x.
Proof.
  intros A f. induction p as [p IH|p IH|]; intros x; cbn [iter_pos].
  - rewrite !IH, Pos2Nat.inj_xI. 
    replace (S (2 * Pos.to_nat p)) with (Pos.to_nat p + S (Pos.to_nat p))%nat by lia.
    rewrite Nat.iter_add. f_equal. now rewrite Nat.iter_succ_r.
  - rewrite !IH, Pos2Nat.inj_xO.
    replace (2 * Pos.to_nat p)%nat with (Pos.to_nat p + Pos.to_nat p)%nat by lia.
    now rewrite Nat.iter_add.
  - reflexivity.
Qed.

Lemma shr_1_spec :
  forall mrs, 0 <= shr_m mrs ->
    shr_m (shr_1 mrs) = shr_m mrs / 2
    /\ (shr_r (shr_1 mrs) = true -> 2 * shr_m (shr_1 mrs) < shr_m mrs).
Proof.
  intros [m r s] Hm. cbn [shr_m] in Hm. unfold shr_1.
  destruct m as [|[p|p|]|p]; cbn [shr_m shr_r]; try lia.
  - split; [ reflexivity | discriminate ].
  - split; [ | lia ]. rewrite Pos2Z.inj_xI.
    apply Z.div_unique with (r := 1); lia.
  - split; [ | discriminate ]. rewrite Pos2Z.inj_xO.
    apply Z.div_unique with (r := 0); lia.
  - split; [ reflexivity | lia ].
Qed.

Lemma shr_iter_spec :
  forall n mrs, 0 <= shr_m mrs ->
    shr_m (Nat.iter n shr_1 mrs) = shr_m mrs / 2 ^ Z.of_nat n
    /\ (n <> 0%nat -> shr_r (Nat.iter n shr_1 mrs) = true ->
        2 ^ Z.of_nat n * shr_m (Nat.iter n shr_1 mrs) < shr_m mrs).
Proof.
  induction n as [|n IH]; intros mrs Hm.
  - simpl. rewrite Z.div_1_r. split; [ reflexivity | congruence ].
  - destruct (IH mrs Hm) as [IHm IHr]. rewrite Nat.iter_succ.
    assert (Hpos : 0 < 2 ^ Z.of_nat n) by (apply Z.pow_pos_nonneg; lia).
    assert (Hk : 0 <= shr_m (Nat.iter n shr_1 mrs))
      by (rewrite IHm; apply Z.div_pos; lia).
    destruct (shr_1_spec _ Hk) as [Sm Sr].
    rewrite Nat2Z.inj_succ, Z.pow_succ_r by lia. split.
    + rewrite Sm, IHm, Z.div_div by lia. f_equal. lia.
    + intros _ Hr. specialize (Sr Hr).
      assert (2 ^ Z.of_nat n * shr_m (Nat.iter n shr_1 mrs) <= shr_m mrs).
      { rewrite IHm. apply Z.mul_div_le. lia. }
      nia.
Qed.

Lemma shr_fexp_spec :
  forall m e l, 0 <= m ->
    snd (shr_fexp prec emax m e l) = e + shift_of m e
    /\ shr_m (fst (shr_fexp prec emax m e l)) = m / 2 ^ shift_of m e
    /\ (shr_r (fst (shr_fexp prec emax m e l)) = true ->
        l <> loc_Exact \/ 2 ^ shift_of m e * (m / 2 ^ shift_of m e) < m).
Proof.
  intros m e l Hm. unfold shr_fexp, shr, shift_of.
  fold (f_fexp (Zdigits2 m + e)).
  destruct (f_fexp (Zdigits2 m + e) - e) as [|p|p] eqn:Hk; cbn [fst snd].
  - rewrite Z.max_id, Z.add_0_r. change (2 ^ 0) with 1. rewrite Z.div_1_r.
    repeat split.
    + destruct l as [|[]]; reflexivity.
    + intros Hr. left. destruct l as [|[]]; cbn in Hr; congruence.
  - rewrite Z.max_r by lia. rewrite iter_pos_nat.
    destruct (shr_iter_spec (Pos.to_nat p) (shr_record_of_loc m l)) as [Sm Sr].
    { destruct l as [|[]]; exact Hm. }
    rewrite positive_nat_Z in Sm, Sr.
    assert (Hrec : shr_m (shr_record_of_loc m l) = m)
      by (destruct l as [|[]]; reflexivity).
    rewrite Hrec in Sm, Sr. repeat split.
    + exact Sm.
    + intros Hr. right. rewrite <- Sm. apply Sr; [ lia | exact Hr ].
  - rewrite Z.max_l by lia. rewrite Z.add_0_r. change (2 ^ 0) with 1.
    rewrite Z.div_1_r. repeat split.
    + destruct l as [|[]]; reflexivity.
    + intros Hr. left. destruct l as [|[]]; cbn in Hr; congruence.
Qed.

Lemma round_nearest_even_spec :
  forall mrs,
    round_nearest_even (shr_m mrs) (loc_of_shr_record mrs) = shr_m mrs
    \/ (round_nearest_even (shr_m mrs) (loc_of_shr_record mrs) = shr_m mrs + 1
        /\ shr_r mrs = true).
Proof.
  intros [m [] []]; cbn; try (destruct (Z.even m)); auto.
Qed.

Lemma binary_round_aux_eq :
  forall sx mx ex lx,
    binary_round_aux prec emax sx mx ex lx
    = let r1 := shr_fexp prec emax mx ex lx in
      let r2 := shr_fexp prec emax
                  (round_nearest_even (shr_m (fst r1))
                     (loc_of_shr_record (fst r1)))
                  (snd r1) loc_Exact in
      match shr_m (fst r2) with
      | Z0 => S754_zero sx
      | Zpos m =>
          if snd r2 <=? emax - prec then S754_finite sx m (snd r2)
          else S754_infinity sx
      | Zneg _ => S754_nan
      end.
Proof.
  intros. unfold binary_round_aux.
  destruct (shr_fexp prec emax mx ex lx) as [mrs' e']. cbn [fst snd].
  destruct (shr_fexp prec emax _ e' loc_Exact) as [mrs'' e'']. reflexivity.
Qed.

(** A non-negative mantissa bounded by [2^(-e)] stays so when shifted. *)
Lemma shift_upper :
  forall m e, 0 <= m -> e <= 0 -> m <= 2 ^ (- e) ->
    0 <= shift_of m e
    /\ e + shift_of m e <= 0
    /\ m / 2 ^ shift_of m e <= 2 ^ (- (e + shift_of m e))
    /\ (2 ^ shift_of m e * (m / 2 ^ shift_of m e) < 2 ^ (- e) ->
        m / 2 ^ shift_of m e < 2 ^ (- (e + shift_of m e))).
Proof.
  intros m e Hm He Hle.
  assert (Hd : Zdigits2 m <= - e + 1).
  { apply Zdigits2_le; [ lia | lia | ].
    rewrite Z.pow_add_r by lia. change (2 ^ 1) with 2.
    assert (0 < 2 ^ (- e)) by (apply Z.pow_pos_nonneg; lia). lia. }
  pose proof (Zdigits2_nonneg m) as Hd0.
  unfold shift_of. rewrite f_fexp_eq.
  set (k := Z.max 0 (Z.max (Zdigits2 m + e - 53) (-1074) - e)).
  assert (Hk0 : 0 <= k) by lia.
  assert (Hk1 : e + k <= 0) by lia.
  assert (Hpow : 2 ^ (- e) = 2 ^ k * 2 ^ (- (e + k))).
  { rewrite <- Z.pow_add_r by lia. f_equal. lia. }
  assert (Hp : 0 < 2 ^ k) by (apply Z.pow_pos_nonneg; lia).
  repeat split; try assumption.
  - apply Z.div_le_upper_bound; [ exact Hp | ]. now rewrite <- Hpow.
  - intros Hlt. rewrite Hpow in Hlt.
    apply Z.mul_lt_mono_pos_l in Hlt; assumption.
Qed.

Lemma round_upper :
  forall q e l,
    0 <= q -> e <= 0 -> q <= 2 ^ (- e) ->
    (l <> loc_Exact -> q < 2 ^ (- e)) ->
    match binary_round_aux prec emax false q e l with
    | S754_zero false => True
    | S754_finite false m3 e3 => e3 <= 0 /\ Zpos m3 <= 2 ^ (- e3)
    | _ => False
    end.
Proof.
  intros q e l Hq He Hle Hstrict. rewrite binary_round_aux_eq. cbv zeta.
  destruct (shr_fexp_spec q e l Hq) as (E1 & M1 & R1).
  destruct (shift_upper q e Hq He Hle) as (K0 & K1 & U1 & S1).
  set (r1 := shr_fexp prec emax q e l) in *.
  set (k1 := shift_of q e) in *.
  assert (Hp1 : 0 < 2 ^ k1) by (apply Z.pow_pos_nonneg; lia).
  assert (Hm1 : 0 <= shr_m (fst r1))
    by (rewrite M1; apply Z.div_pos; lia).
  assert (Hfl : 2 ^ k1 * (q / 2 ^ k1) <= q) by (apply Z.mul_div_le; lia).
  set (m2 := round_nearest_even (shr_m (fst r1)) (loc_of_shr_record (fst r1))).
  assert (Hm2 : 0 <= m2 /\ m2 <= 2 ^ (- snd r1)).
  { rewrite E1. unfold m2.
    destruct (round_nearest_even_spec (fst r1)) as [-> | [-> Hr]].
    - rewrite M1. split; [ apply Z.div_pos; lia | exact U1 ].
    - split; [ lia | ].
      assert (q / 2 ^ k1 < 2 ^ (- (e + k1))).
      { apply S1. destruct (R1 Hr) as [Hl | Hl].
        - specialize (Hstrict Hl). lia.
        - lia. }
      rewrite M1. lia. }
  destruct Hm2 as [Hm2 Hu2].
  assert (He1 : snd r1 <= 0) by (rewrite E1; exact K1).
  destruct (shr_fexp_spec m2 (snd r1) loc_Exact Hm2) as (E2 & M2 & _).
  destruct (shift_upper m2 (snd r1) Hm2 He1 Hu2) as (K20 & K21 & U2 & _).
  set (r2 := shr_fexp prec emax m2 (snd r1) loc_Exact) in *.
  assert (Hp2 : 0 < 2 ^ shift_of m2 (snd r1)) by (apply Z.pow_pos_nonneg; lia).
  assert (Hm3 : 0 <= shr_m (fst r2)) by (rewrite M2; apply Z.div_pos; lia).
  destruct (shr_m (fst r2)) as [|m3|m3] eqn:Hm3e; [ exact I | | lia ].
  assert (Hfin : (snd r2 <=? emax - prec) = true).
  { apply Z.leb_le. rewrite E2. change (emax - prec) with 971. lia. }
  rewrite Hfin. rewrite E2. split; [ exact K21 | ]. rewrite <- M2 in U2.
  exact U2.
Qed.

(** *** Division *)

Lemma new_location_zero :
  forall nb, new_location nb 0 = loc_Exact.
Proof.
  intros nb. unfold new_location, new_location_even, new_location_odd.
  destruct (Z.even nb); reflexivity.
Qed.

Lemma val_le_digits :
  forall mx ex my ey,
    -1074 <= ex -> -1074 <= ey ->
    val (Zpos mx) ex <= val (Zpos my) ey ->
    Zpos (digits2_pos mx) + ex <= Zpos (digits2_pos my) + ey.
Proof.
  intros mx ex my ey Hx Hy Hle. unfold val in Hle.
  destruct (digits2_pos_bounds mx) as [Lx _].
  destruct (digits2_pos_bounds my) as [_ Uy].
  set (dx := Zpos (digits2_pos mx)) in *.
  set (dy := Zpos (digits2_pos my)) in *.
  assert (Hdx : 1 <= dx) by (unfold dx; lia).
  assert (Hdy : 1 <= dy) by (unfold dy; lia).
  assert (Px : 0 < 2 ^ (ex + 1074)) by (apply Z.pow_pos_nonneg; lia).
  assert (Py : 0 < 2 ^ (ey + 1074)) by (apply Z.pow_pos_nonneg; lia).
  assert (H1 : 2 ^ (dx - 1 + (ex + 1074)) <= Zpos mx * 2 ^ (ex + 1074)).
  { rewrite Z.pow_add_r by lia. apply Z.mul_le_mono_nonneg_r; lia. }
  assert (H2 : Zpos my * 2 ^ (ey + 1074) < 2 ^ (dy + (ey + 1074))).
  { rewrite (Z.pow_add_r 2 dy (ey + 1074)) by lia.
    apply Z.mul_lt_mono_pos_r; lia. }
  assert (H3 : 2 ^ (dx - 1 + (ex + 1074)) < 2 ^ (dy + (ey + 1074))) by lia.
  destruct (Z_le_gt_dec (dx + ex) (dy + ey)) as [H|H]; [ exact H | exfalso ].
  assert (2 ^ (dy + (ey + 1074)) <= 2 ^ (dx - 1 + (ex + 1074)))
    by (apply Z.pow_le_mono_r; lia).
  lia.
Qed.

Lemma div_core_spec :
  forall mx ex my ey,
    -1074 <= ex -> -1074 <= ey ->
    val (Zpos mx) ex <= val (Zpos my) ey ->
    let r := SFdiv_core_binary prec emax (Zpos mx) ex (Zpos my) ey in
    0 <= fst (fst r)
    /\ snd (fst r) <= 0
    /\ fst (fst r) <= 2 ^ (- snd (fst r))
    /\ (snd r <> loc_Exact -> fst (fst r) < 2 ^ (- snd (fst r))).
Proof.
  intros mx ex my ey Hx Hy Hle.
  pose proof (val_le_digits mx ex my ey Hx Hy Hle) as Hd.
  unfold SFdiv_core_binary. cbn [Zdigits2]. cbv zeta.
  fold (f_fexp (Zpos (digits2_pos mx) + ex - (Zpos (digits2_pos my) + ey))).
  rewrite f_fexp_eq.
  set (e' := Z.min (Z.max (Zpos (digits2_pos mx) + ex
                           - (Zpos (digits2_pos my) + ey) - 53) (-1074))
                   (ex - ey)).
  assert (He' : e' <= -53) by lia.
  assert (Hs : 0 <= ex - ey - e') by lia.
  set (m' := match ex - ey - e' with
             | 0 => Zpos mx
             | Zpos _ => Z.shiftl (Zpos mx) (ex - ey - e')
             | Zneg _ => 0
             end).
  assert (Hm' : m' = Zpos mx * 2 ^ (ex - ey - e')).
  { unfold m'. destruct (ex - ey - e') as [|p|p] eqn:Hp.
    - simpl. lia.
    - apply Z.shiftl_mul_pow2. lia.
    - lia. }
  assert (Hbound : m' <= Zpos my * 2 ^ (- e')).
  { rewrite Hm'. unfold val in Hle.
    assert (Py : 0 < 2 ^ (ey + 1074)) by (apply Z.pow_pos_nonneg; lia).
    assert (Pc : 0 < 2 ^ (- e')) by (apply Z.pow_pos_nonneg; lia).
    assert (Hdb : 2 ^ (ex - ey - e') * 2 ^ (ey + 1074)
                  = 2 ^ (ex + 1074) * 2 ^ (- e')).
    { rewrite <- !Z.pow_add_r by lia. f_equal. lia. }
    apply (Z.mul_le_mono_pos_r _ _ (2 ^ (ey + 1074))); [ exact Py | ].
    rewrite <- Z.mul_assoc, Hdb.
    replace (Zpos my * 2 ^ (- e') * 2 ^ (ey + 1074))
      with (Zpos my * 2 ^ (ey + 1074) * 2 ^ (- e')) by ring.
    rewrite Z.mul_assoc. apply Z.mul_le_mono_nonneg_r; lia. }
  pose proof (Z.div_eucl_eq m' (Zpos my) ltac:(lia)) as Heq.
  pose proof (Z.mod_pos_bound m' (Zpos my) ltac:(lia)) as Hmod.
  unfold Z.modulo in Hmod.
  destruct (Z.div_eucl m' (Zpos my)) as [q r]. cbn [fst snd].
  assert (Hm0 : 0 <= m') by (rewrite Hm'; apply Z.mul_nonneg_nonneg;
                             [ lia | apply Z.pow_nonneg; lia ]).
  assert (Hq : 0 <= q) by nia.
  assert (Hq2 : Zpos my * q <= Zpos my * 2 ^ (- e')) by lia.
  repeat split.
  - exact Hq.
  - lia.
  - apply Z.mul_le_mono_pos_l in Hq2; lia.
  - intros Hl. assert (Hr : r <> 0).
    { intros ->. apply Hl. apply new_location_zero. }
    assert (Hq3 : Zpos my * q < Zpos my * 2 ^ (- e')) by lia.
    apply Z.mul_lt_mono_pos_l in Hq3; lia.
Qed.

Lemma SFdiv_upper :
  forall mx ex my ey,
    -1074 <= ex -> -1074 <= ey ->
    val (Zpos mx) ex <= val (Zpos my) ey ->
    match SFdiv prec emax (S754_finite false mx ex) (S754_finite false my ey) with
    | S754_zero false => True
    | S754_finite false m3 e3 => e3 <= 0 /\ Zpos m3 <= 2 ^ (- e3)
    | _ => False
    end.
Proof.
  intros mx ex my ey Hx Hy Hle.
  destruct (div_core_spec mx ex my ey Hx Hy Hle) as (H1 & H2 & H3 & H4).
  unfold SFdiv.
  destruct (SFdiv_core_binary prec emax (Zpos mx) ex (Zpos my) ey)
    as [[q e'] l].
  cbn [fst snd xorb] in *. now apply round_upper.
Qed.

(** *** Comparison of canonical floats *)

Lemma canonical_facts :
  forall m e,
    canonical_mantissa prec emax m e = true ->
    -1074 <= e
    /\ Zpos (digits2_pos m) <= 53
    /\ (-1074 < e -> Zpos (digits2_pos m) = 53).
Proof.
  intros m e H. unfold canonical_mantissa in H. apply Z.eqb_eq in H.
  fold (f_fexp (Zpos (digits2_pos m) + e)) in H. rewrite f_fexp_eq in H. lia.
Qed.

Lemma canonical_lt_pow :
  forall m e, canonical_mantissa prec emax m e = true -> Zpos m < 2 ^ 53.
Proof.
  intros m e H. destruct (canonical_facts m e H) as (_ & Hd & _).
  destruct (digits2_pos_bounds m) as [_ Hu].
  assert (2 ^ Zpos (digits2_pos m) <= 2 ^ 53) by (apply Z.pow_le_mono_r; lia).
  lia.
Qed.

Lemma SFleb_finite :
  forall m1 e1 m2 e2,
    canonical_mantissa prec emax m1 e1 = true ->
    canonical_mantissa prec emax m2 e2 = true ->
    val (Zpos m1) e1 <= val (Zpos m2) e2 ->
    SFleb (S754_finite false m1 e1) (S754_finite false m2 e2) = true.
Proof.
  intros m1 e1 m2 e2 C1 C2 Hle.
  destruct (canonical_facts m1 e1 C1) as (L1 & D1 & N1).
  destruct (canonical_facts m2 e2 C2) as (L2 & D2 & N2).
  pose proof (canonical_lt_pow m2 e2 C2) as U2.
  unfold SFleb, SFcompare, val in *.
  destruct (Z.compare_spec e1 e2) as [Heq | Hlt | Hgt].
  - subst e2. fold (Pos.compare m1 m2).
    assert (P : 0 < 2 ^ (e1 + 1074)) by (apply Z.pow_pos_nonneg; lia).
    apply Z.mul_le_mono_pos_r in Hle; [ | exact P ].
    destruct (Pos.compare_spec m1 m2); try reflexivity. lia.
  - reflexivity.
  - exfalso.
    destruct (digits2_pos_bounds m1) as [Lo _]. rewrite (N1 ltac:(lia)) in Lo.
    change (2 ^ (53 - 1)) with (2 ^ 52) in Lo.
    assert (P2 : 0 < 2 ^ (e2 + 1074)) by (apply Z.pow_pos_nonneg; lia).
    assert (Hsplit : 2 ^ (e1 + 1074) = 2 ^ (e1 - e2) * 2 ^ (e2 + 1074)).
    { rewrite <- Z.pow_add_r by lia. f_equal. lia. }
    assert (H2 : 2 ^ 1 <= 2 ^ (e1 - e2)) by (apply Z.pow_le_mono_r; lia).
    change (2 ^ 1) with 2 in H2. change (2 ^ 53) with (2 * 2 ^ 52) in U2.
    rewrite Hsplit, Z.mul_assoc in Hle.
    apply Z.mul_le_mono_pos_r in Hle; [ | exact P2 ].
    assert (0 < 2 ^ 52) by reflexivity. nia.
Qed.

Lemma SFleb_one :
  forall m e,
    canonical_mantissa prec emax m e = true ->
    e <= 0 -> Zpos m <= 2 ^ (- e) ->
    SFleb (S754_finite false m e) (Prim2SF 1) = true.
Proof.
  intros m e C He Hm.
  change (Prim2SF 1) with (S754_finite false 4503599627370496 (-52)).
  destruct (canonical_facts m e C) as (L & _ & _).
  apply SFleb_finite; [ exact C | reflexivity | ].
  unfold val. change (-52 + 1074) with 1022.
  assert (P : 0 < 2 ^ (e + 1074)) by (apply Z.pow_pos_nonneg; lia).
  assert (Hs : 2 ^ (- e) * 2 ^ (e + 1074) = 4503599627370496 * 2 ^ 1022).
  { rewrite <- Z.pow_add_r by lia. replace (- e + (e + 1074)) with 1074 by lia.
    reflexivity. }
  rewrite <- Hs. apply Z.mul_le_mono_nonneg_r; lia.
Qed.

(** *** Addition *)

Lemma Pos_iter_xO :
  forall d m, Zpos (Pos.iter xO m d) = Zpos m * 2 ^ Zpos d.
Proof.
  induction d as [|d IH] using Pos.peano_ind; intros m.
  - cbn. lia.
  - rewrite Pos.iter_succ, Pos2Z.inj_succ, Z.pow_succ_r by lia.
    rewrite Pos2Z.inj_xO, IH. ring.
Qed.

Lemma shl_align_spec :
  forall m e e',
    snd (shl_align m e e') = Z.min e e'
    /\ Zpos (fst (shl_align m e e')) = Zpos m * 2 ^ (e - Z.min e e').
Proof.
  intros m e e'. unfold shl_align.
  destruct (e' - e) as [|d|d] eqn:Hd; cbn [fst snd].
  - rewrite Z.min_l by lia. rewrite Z.sub_diag. simpl. split; lia.
  - rewrite Z.min_l by lia. rewrite Z.sub_diag. simpl. split; lia.
  - rewrite Z.min_r by lia. split; [ reflexivity | ].
    rewrite Pos_iter_xO. f_equal. f_equal. lia.
Qed.

(** Rounding an exact positive value never falls below a canonical float
    that the value dominates. *)
Lemma round_lower :
  forall m0 e0 mb eb,
    0 < m0 -> -1074 <= e0 -> e0 <= eb ->
    canonical_mantissa prec emax mb eb = true ->
    Zpos mb * 2 ^ (eb - e0) <= m0 ->
    match binary_round_aux prec emax false m0 e0 loc_Exact with
    | S754_infinity false => True
    | S754_finite false m3 e3 => val (Zpos mb) eb <= val (Zpos m3) e3
    | _ => False
    end.
Proof.
  intros m0 e0 mb eb Hm0 He0 Heb Cb Hle.
  destruct (canonical_facts mb eb Cb) as (Lb & Db & Nb).
  pose proof (canonical_lt_pow mb eb Cb) as Ub.
  rewrite binary_round_aux_eq. cbv zeta.
  destruct (shr_fexp_spec m0 e0 loc_Exact ltac:(lia)) as (E1 & M1 & _).
  set (r1 := shr_fexp prec emax m0 e0 loc_Exact) in *.
  destruct (Zdigits2_bounds m0 Hm0) as [Lo0 Hi0].
  pose proof (Zdigits2_nonneg m0) as Hd0.
  assert (Hk : shift_of m0 e0
               = Z.max 0 (Z.max (Zdigits2 m0 + e0 - 53) (-1074) - e0))
    by reflexivity.
  set (k1 := shift_of m0 e0) in *.
  set (e1 := snd r1) in *.
  set (m1 := shr_m (fst r1)) in *.
  assert (Hk0 : 0 <= k1) by lia.
  assert (Pk : 0 < 2 ^ k1) by (apply Z.pow_pos_nonneg; lia).
  (* the shifted mantissa has at most 53 digits *)
  assert (Hm1u : m1 < 2 ^ 53).
  { rewrite M1. apply Z.div_lt_upper_bound; [ exact Pk | ].
    rewrite <- Z.pow_add_r by lia.
    assert (2 ^ Zdigits2 m0 <= 2 ^ (k1 + 53)) by (apply Z.pow_le_mono_r; lia).
    lia. }
  (* it dominates the canonical float *)
  assert (Hdom : val (Zpos mb) eb <= val m1 e1).
  { unfold val. rewrite E1.
    destruct (Z_le_gt_dec (e0 + k1) eb) as [Hc | Hc].
    - assert (Hq : Zpos mb * 2 ^ (eb - (e0 + k1)) <= m1).
      { rewrite M1. apply Z.div_le_lower_bound; [ exact Pk | ].
        rewrite Z.mul_comm, <- Z.mul_assoc, <- Z.pow_add_r by lia.
        replace (eb - (e0 + k1) + k1) with (eb - e0) by lia. exact Hle. }
      replace (eb + 1074) with (eb - (e0 + k1) + (e0 + k1 + 1074)) by lia.
      rewrite Z.pow_add_r, Z.mul_assoc by lia.
      apply Z.mul_le_mono_nonneg_r; [ apply Z.pow_nonneg; lia | exact Hq ].
    - assert (Hk1 : k1 = Zdigits2 m0 - 53) by lia.
      assert (Hm1l : 2 ^ 52 <= m1).
      { rewrite M1. apply Z.div_le_lower_bound; [ exact Pk | ].
        rewrite <- Z.pow_add_r by lia.
        replace (k1 + 52) with (Zdigits2 m0 - 1) by lia. exact Lo0. }
      assert (P1 : 0 < 2 ^ (eb + 1074)) by (apply Z.pow_pos_nonneg; lia).
      assert (Hs : 2 ^ (e0 + k1 + 1074)
                   = 2 ^ (e0 + k1 - eb) * 2 ^ (eb + 1074)).
      { rewrite <- Z.pow_add_r by lia. f_equal. lia. }
      assert (H2 : 2 ^ 1 <= 2 ^ (e0 + k1 - eb))
        by (apply Z.pow_le_mono_r; lia).
      change (2 ^ 1) with 2 in H2. change (2 ^ 53) with (2 * 2 ^ 52) in Ub.
      rewrite Hs, Z.mul_assoc. apply Z.mul_le_mono_nonneg_r; [ lia | ].
      assert (0 < 2 ^ 52) by reflexivity. nia. }
  assert (He1 : -1074 <= e1) by (rewrite E1; lia).
  assert (Hm1p : 0 < m1).
  { unfold val in Hdom.
    assert (0 < 2 ^ (eb + 1074)) by (apply Z.pow_pos_nonneg; lia).
    assert (0 < 2 ^ (e1 + 1074)) by (apply Z.pow_pos_nonneg; lia).
    nia. }
  set (m2 := round_nearest_even m1 (loc_of_shr_record (fst r1))).
  assert (Hm2 : m1 <= m2 <= m1 + 1).
  { unfold m2, m1.
    destruct (round_nearest_even_spec (fst r1)) as [-> | [-> _]]; lia. }
  destruct (shr_fexp_spec m2 e1 loc_Exact ltac:(lia)) as (E2 & M2 & _).
  set (r2 := shr_fexp prec emax m2 e1 loc_Exact) in *.
  assert (Hval3 : 0 < shr_m (fst r2)
                  /\ val m2 e1 = val (shr_m (fst r2)) (snd r2)).
  { rewrite E2, M2. unfold shift_of. rewrite f_fexp_eq.
    destruct (Z_lt_le_dec m2 (2 ^ 53)) as [Hlt | Hge].
    - assert (Zdigits2 m2 <= 53) by (apply Zdigits2_le; lia).
      rewrite Z.max_l by lia. change (2 ^ 0) with 1.
      rewrite Z.div_1_r, Z.add_0_r. split; [ lia | reflexivity ].
    - assert (Hm2e : m2 = 2 ^ 53) by lia. rewrite Hm2e.
      change (Zdigits2 (2 ^ 53)) with 54.
      replace (Z.max 0 (Z.max (54 + e1 - 53) (-1074) - e1)) with 1 by lia.
      change (2 ^ 53 / 2 ^ 1) with (2 ^ 52). split; [ reflexivity | ].
      unfold val. replace (e1 + 1 + 1074) with (1 + (e1 + 1074)) by lia.
      rewrite (Z.pow_add_r 2 1) by lia. change (2 ^ 53) with (2 ^ 52 * 2 ^ 1).
      ring. }
  destruct Hval3 as [Hp3 Hv3].
  assert (Hdom2 : val (Zpos mb) eb <= val (shr_m (fst r2)) (snd r2)).
  { rewrite <- Hv3. etransitivity; [ exact Hdom | ]. unfold val.
    apply Z.mul_le_mono_nonneg_r; [ apply Z.pow_nonneg; lia | lia ]. }
  destruct (shr_m (fst r2)) as [|m3|m3]; try lia.
  destruct (snd r2 <=? emax - prec); [ exact Hdom2 | exact I ].
Qed.

Lemma SFadd_lower :
  forall mb eb ms es,
    canonical_mantissa prec emax mb eb = true ->
    canonical_mantissa prec emax ms es = true ->
    match SFadd prec emax (S754_finite false mb eb) (S754_finite false ms es) with
    | S754_infinity false => True
    | S754_finite false mt et => val (Zpos mb) eb <= val (Zpos mt) et
    | _ => False
    end.
Proof.
  intros mb eb ms es Cb Cs.
  destruct (canonical_facts mb eb Cb) as (Lb & _ & _).
  destruct (canonical_facts ms es Cs) as (Ls & _ & _).
  unfold SFadd, cond_Zopp.
  set (ez := Z.min eb es).
  destruct (shl_align_spec mb eb ez) as [_ Ha].
  set (a := fst (shl_align mb eb ez)) in *.
  set (b := fst (shl_align ms es ez)).
  change (Zpos a + Zpos b) with (Zpos (a + b)).
  unfold binary_normalize, binary_round.
  fold (f_fexp (Zpos (digits2_pos (a + b)) + ez)).
  destruct (shl_align_spec (a + b) ez (f_fexp (Zpos (digits2_pos (a + b)) + ez)))
    as [He Hm].
  destruct (shl_align (a + b) ez (f_fexp (Zpos (digits2_pos (a + b)) + ez)))
    as [mz ez'].
  cbn [fst snd] in He, Hm. rewrite f_fexp_eq in He, Hm.
  rewrite (Z.min_r eb ez) in Ha by lia.
  apply round_lower; try assumption; try lia.
  rewrite Hm, <- He, Pos2Z.inj_add.
  assert (P : 0 <= 2 ^ (ez - ez')) by (apply Z.pow_nonneg; lia).
  assert (Hs : 2 ^ (eb - ez') = 2 ^ (eb - ez) * 2 ^ (ez - ez')).
  { rewrite <- Z.pow_add_r by lia. f_equal. lia. }
  rewrite Hs, Z.mul_assoc, <- Ha. nia.
Qed.

(** *** The ratio [x / (x + y)] of non-negative finite floats *)

Lemma SF_ratio_range :
  forall x y,
    valid_binary x = true -> valid_binary y = true ->
    SF_nonneg_finite x = true -> SF_nonneg_finite y = true ->
    valid_binary (SFadd prec emax x y) = true ->
    valid_binary (SFdiv prec emax x (SFadd prec emax x y)) = true ->
    SFltb (S754_zero false) (SFadd prec emax x y) = true ->
    SFleb (S754_zero false) (SFdiv prec emax x (SFadd prec emax x y))
    && SFleb (SFdiv prec emax x (SFadd prec emax x y)) (Prim2SF 1) = true.
Proof.
  assert (Hfin : forall mb eb mt et,
             canonical_mantissa prec emax mb eb = true ->
             canonical_mantissa prec emax mt et = true ->
             val (Zpos mb) eb <= val (Zpos mt) et ->
             valid_binary (SFdiv prec emax (S754_finite false mb eb)
                             (S754_finite false mt et)) = true ->
             SFleb (S754_zero false)
               (SFdiv prec emax (S754_finite false mb eb)
                  (S754_finite false mt et))
             && SFleb (SFdiv prec emax (S754_finite false mb eb)
                         (S754_finite false mt et)) (Prim2SF 1) = true).
  { intros mb eb mt et Cb Ct Hle Hv.
    destruct (canonical_facts mb eb Cb) as (Lb & _ & _).
    destruct (canonical_facts mt et Ct) as (Lt & _ & _).
    pose proof (SFdiv_upper mb eb mt et Lb Lt Hle) as Hu.
    destruct (SFdiv prec emax (S754_finite false mb eb)
                (S754_finite false mt et)) as [[]|[]| |[] m3 e3];
      try contradiction; [ reflexivity | ].
    destruct Hu as [He3 Hm3]. cbn in Hv. apply andb_true_iff in Hv.
    destruct Hv as [C3 _]. cbn [SFleb SFcompare andb].
    now apply SFleb_one. }
  intros x y Vx Vy Nx Ny Vt Vq Hpos.
  destruct x as [sx| | |[] mb eb]; try discriminate;
    destruct y as [sy| | |[] ms es]; try discriminate.
  - destruct sx, sy; discriminate.
  - destruct sx; reflexivity.
  - cbn [SFadd] in *. cbn in Vx. apply andb_true_iff in Vx.
    destruct Vx as [Cb _]. apply Hfin; try assumption. lia.
  - cbn in Vx, Vy. apply andb_true_iff in Vx. apply andb_true_iff in Vy.
    destruct Vx as [Cb _]. destruct Vy as [Cs _].
    pose proof (SFadd_lower mb eb ms es Cb Cs) as Hl.
    destruct (SFadd prec emax (S754_finite false mb eb)
                (S754_finite false ms es)) as [[]|[]| |[] mt et];
      try contradiction.
    + reflexivity.
    + cbn in Vt. apply andb_true_iff in Vt. destruct Vt as [Ct _].
      now apply Hfin.
Qed.

(** The same on primitive floats. *)
Lemma nonneg_finite_SF :
  forall x : float,
    PrimFloat.leb 0 x = true -> PrimFloat.ltb x infinity = true ->
    SF_nonneg_finite (Prim2SF x) = true.
Proof.
  intros x Hle Hlt. rewrite leb_spec in Hle. rewrite ltb_spec in Hlt.
  change (Prim2SF 0) with (S754_zero false) in Hle.
  change (Prim2SF infinity) with (S754_infinity false) in Hlt.
  destruct (Prim2SF x) as [s|[]| |[] m e]; try reflexivity; discriminate.
Qed.

Theorem float_ratio_range :
  forall b s : float,
    PrimFloat.leb 0 b = true -> PrimFloat.ltb b infinity = true ->
    PrimFloat.leb 0 s = true -> PrimFloat.ltb s infinity = true ->
    PrimFloat.ltb 0 (b + s) = true ->
    PrimFloat.leb 0 (b / (b + s)) && PrimFloat.leb (b / (b + s)) 1 = true.
Proof.
  intros b s Hb0 Hb1 Hs0 Hs1 Hpos.
  rewrite !leb_spec. rewrite ltb_spec in Hpos.
  pose proof (Prim2SF_valid (b + s)) as Vt.
  pose proof (Prim2SF_valid (b / (b + s))) as Vq.
  rewrite div_spec in *. rewrite add_spec in *.
  change (Prim2SF 0) with (S754_zero false) in *.
  apply SF_ratio_range; try assumption.
  - apply Prim2SF_valid.
  - apply Prim2SF_valid.
  - now apply nonneg_finite_SF.
  - now apply nonneg_finite_SF.
Qed.

(** ** The buy-side pressure (C6) *)

(** C6, as stated, fails: with both side sums at zero the ratio is
    defined, it is NaN and it lies outside [0,1]. *)
Lemma C6_zero_denominator_gives_nan :
  exists v,
    buy_pressure_of (Some 0%float) (Some 0%float) = Some v
    /\ PrimFloat.is_nan v = true
    /\ in_unit_interval v = false.
Proof. eexists. repeat split; vm_compute; reflexivity. Qed.

Lemma buy_pressure_of_eq :
  forall count_buy count_sell,
    buy_pressure_of count_buy count_sell
    = match count_buy, count_sell with
      | Some b, Some s => Some (PrimFloat.div b (PrimFloat.add b s))
      | _, _ => None
      end.
Proof.
  intros [b|] [s|]; reflexivity.
Qed.

Lemma record_buy_pressure :
  forall st tick timer1s timer1m f t r,
    snd (ticker_statistics_subgraph st tick timer1s timer1m f t) = Some r ->
    TickerStatisticsData.buy_pressure r
    = PrimFloat.div (TickerStatisticsData.buy_count r)
        (PrimFloat.add (TickerStatisticsData.buy_count r)
           (TickerStatisticsData.sell_count r)).
Proof.
  intros st tick timer1s timer1m f t r Hr.
  destruct (subgraph_out_fields st tick timer1s timer1m f t r Hr) as [Hm _].
  unfold metrics, record_metrics in Hm. cbn [map] in Hm.
  injection Hm as _ _ _ _ _ _ _ _ _ Hs Hb Hp _.
  rewrite Hs, Hb, buy_pressure_of_eq in Hp. now injection Hp.
Qed.

Lemma buy_pressure_in_range :
  forall b s,
    finite_nonneg b = true -> finite_nonneg s = true ->
    PrimFloat.ltb 0 (PrimFloat.add b s) = true ->
    in_unit_interval (PrimFloat.div b (PrimFloat.add b s)) = true.
Proof.
  intros b s Hb Hs Hpos. unfold finite_nonneg in Hb, Hs.
  apply andb_true_iff in Hb. apply andb_true_iff in Hs.
  destruct Hb as [Hb0 Hb1]. destruct Hs as [Hs0 Hs1].
  unfold in_unit_interval.
  change (float_of_Z 0) with 0%float. change (float_of_Z 1) with 1%float.
  now apply float_ratio_range.
Qed.

(** C6, amended: [buy_pressure] is defined exactly when [buy_count] and
    [sell_count] are both defined, whatever the denominator; it is then
    the IEEE-754 quotient [buy_count / (buy_count + sell_count)], which
    is computed without any fault; whenever the two sums are finite and
    non-negative and their sum is positive, it lies in the closed
    interval [0,1]; and every emitted record carries that quotient of
    its own two sums. *)
Theorem C6_buy_pressure_ratio :
  forall count_buy count_sell,
    csp.valid (buy_pressure_of count_buy count_sell)
    = csp.valid count_buy && csp.valid count_sell
    /\ buy_pressure_of count_buy count_sell
       = match count_buy, count_sell with
         | Some b, Some s => Some (PrimFloat.div b (PrimFloat.add b s))
         | _, _ => None
         end
    /\ (forall b s,
          count_buy = Some b -> count_sell = Some s ->
          finite_nonneg b = true -> finite_nonneg s = true ->
          PrimFloat.ltb 0 (PrimFloat.add b s) = true ->
          exists v,
            buy_pressure_of count_buy count_sell = Some v
            /\ in_unit_interval v = true)
    /\ (forall st tick timer1s timer1m f t r,
          snd (ticker_statistics_subgraph st tick timer1s timer1m f t)
          = Some r ->
          TickerStatisticsData.buy_pressure r
          = PrimFloat.div (TickerStatisticsData.buy_count r)
              (PrimFloat.add (TickerStatisticsData.buy_count r)
                 (TickerStatisticsData.sell_count r))
          /\ (finite_nonneg (TickerStatisticsData.buy_count r) = true ->
              finite_nonneg (TickerStatisticsData.sell_count r) = true ->
              PrimFloat.ltb 0
                (PrimFloat.add (TickerStatisticsData.buy_count r)
                   (TickerStatisticsData.sell_count r)) = true ->
              in_unit_interval (TickerStatisticsData.buy_pressure r) = true)).
Proof.
  intros count_buy count_sell. split; [ | split; [ | split ] ].
  - rewrite buy_pressure_of_eq. destruct count_buy, count_sell; reflexivity.
  - apply buy_pressure_of_eq.
  - intros b s -> -> Hb Hs Hpos. rewrite buy_pressure_of_eq.
    eexists. split; [ reflexivity | ]. now apply buy_pressure_in_range.
  - intros st tick timer1s timer1m f t r Hr.
    pose proof (record_buy_pressure st tick timer1s timer1m f t r Hr) as Hp.
    split; [ exact Hp | ]. intros Hb Hs Hpos. rewrite Hp.
    now apply buy_pressure_in_range.
Qed.

Lemma C6_buy_pressure_ratio_witness :
  exists v,
    buy_pressure_of (Some 900%float) (Some 300%float) = Some v
    /\ in_unit_interval v = true.
Proof.
  exact (proj1 (proj2 (proj2 (C6_buy_pressure_ratio
                                (Some 900%float) (Some 300%float))))
           900%float 300%float eq_refl eq_refl eq_refl eq_refl eq_refl).
Defined.

(** * Further properties *)

(** ** Decoding of messages *)

Lemma bind_Some :
  forall (A B : Type) (x : option A) (k : A -> option B) b,
    bind x k = Some b -> exists a, x = Some a /\ k a = Some b.
Proof. intros A B [a|] k b H; [ now exists a | discriminate ]. Qed.

Lemma get_default_present :
  forall rt msg k d x,
    py_float rt (get msg k) = Some x -> get_default msg k d = get msg k.
Proof.
  intros rt msg k d x. unfold get, get_default.
  destruct (dict_get msg k); [ reflexivity | discriminate ].
Qed.

Lemma PrimFloat_mul_comm :
  forall x y : float, PrimFloat.mul x y = PrimFloat.mul y x.
Proof.
  intros x y. apply Prim2SF_inj. rewrite !mul_spec. unfold SF64mul, SFmul.
  destruct (Prim2SF x) as [sx|sx| |sx mx ex],
           (Prim2SF y) as [sy|sy| |sy my ey];
    try reflexivity; rewrite (xorb_comm sx sy); try reflexivity.
  now rewrite (Pos.mul_comm mx my), (Z.add_comm ex ey).
Qed.

(** X1: a message without a price or without a size pushes no trade: the
    defaults of 0.0 given for the two fields never reach a trade, because
    the volume is computed from the bare fields. *)
Theorem process_message_needs_price_and_size :
  forall rt msg,
    dict_get msg "price" = None \/ dict_get msg "size" = None ->
    _process_message rt msg = None.
Proof.
  intros rt msg H. unfold _process_message.
  destruct (is_XT (get msg "event_type")); [ | reflexivity ].
  assert (Hm : py_float rt (get msg "size") = None
               \/ py_float rt (get msg "price") = None).
  { unfold get. destruct H as [-> | ->]; [ right | left ]; reflexivity. }
  repeat match goal with
         | |- bind ?e _ = None =>
             let E := fresh "E" in
             destruct e eqn:E; [ cbn [bind] | reflexivity ]
         end.
  destruct Hm; congruence.
Qed.

Lemma process_message_needs_price_and_size_witness :
  _process_message sample_runtime
    [ ("event_type"%string, PyStr "XT"); ("timestamp"%string, PyInt 0);
      ("size"%string, PyInt 2) ] = None.
Proof.
  apply process_message_needs_price_and_size. left. reflexivity.
Defined.

(** X2: in every trade pushed, [volume] is the product of [price] and
    [size], [timestamp] is the message's timestamp as a float and
    [trade_time] its conversion after division by 1000; the message is
    an "XT" event; and a missing pair, conditions list or exchange shows
    as "UNKNOWN", 0 and 0. *)
Theorem process_message_fields :
  forall rt msg tr,
    _process_message rt msg = Some tr ->
    is_XT (get msg "event_type") = true
    /\ py_float rt (get msg "timestamp") = Some (CryptoTradeData.timestamp tr)
    /\ fromtimestamp rt (PrimFloat.div (CryptoTradeData.timestamp tr) 1000)
       = Some (CryptoTradeData.trade_time tr)
    /\ py_float rt (get msg "price") = Some (CryptoTradeData.price tr)
    /\ py_float rt (get msg "size") = Some (CryptoTradeData.size tr)
    /\ CryptoTradeData.volume tr
       = PrimFloat.mul (CryptoTradeData.price tr) (CryptoTradeData.size tr)
    /\ (dict_get msg "pair" = None -> CryptoTradeData.pair tr = "UNKNOWN"%string)
    /\ (dict_get msg "conditions" = None -> CryptoTradeData.sellorbuy tr = 0)
    /\ (dict_get msg "exchange" = None -> CryptoTradeData.exchange tr = 0).
Proof.
  intros rt msg tr H. unfold _process_message in H.
  destruct (is_XT (get msg "event_type")); [ | discriminate ].
  apply bind_Some in H. destruct H as (ts & Hts & H).
  apply bind_Some in H. destruct H as (tt & Htt & H).
  apply bind_Some in H. destruct H as (pr & Hpair & H).
  apply bind_Some in H. destruct H as (p & Hp & H).
  apply bind_Some in H. destruct H as (s & Hs & H).
  apply bind_Some in H. destruct H as (s' & Hs' & H).
  apply bind_Some in H. destruct H as (p' & Hp' & H).
  apply bind_Some in H. destruct H as (cond & Hc & H).
  apply bind_Some in H. destruct H as (sb & Hsb & H).
  apply bind_Some in H. destruct H as (ex & Hex & H).
  injection H as <-. cbn.
  rewrite (get_default_present rt msg "price" (PyFloat 0) p' Hp') in Hp.
  rewrite (get_default_present rt msg "size" (PyFloat 0) s' Hs') in Hs.
  assert (p' = p) by congruence. assert (s' = s) by congruence. subst p' s'.
  repeat split; try assumption.
  - apply PrimFloat_mul_comm.
  - intros Hn. unfold get_default in Hpair. rewrite Hn in Hpair.
    now injection Hpair.
  - intros Hn. unfold get_default in Hc. rewrite Hn in Hc.
    injection Hc as <-. now injection Hsb.
  - intros Hn. unfold get_default in Hex. rewrite Hn in Hex.
    now injection Hex.
Qed.

Lemma process_message_fields_witness :
  CryptoTradeData.volume
    (CryptoTradeData.mk "BTC-USD" 100.5 2 201 1700000000123
       1700000000123000 2 1)
  = PrimFloat.mul 100.5 2.
Proof.
  exact (proj1 (proj2 (proj2 (proj2 (proj2 (proj2
           (process_message_fields sample_runtime sample_message
              (CryptoTradeData.mk "BTC-USD" 100.5 2 201 1700000000123
                 1700000000123000 2 1) eq_refl))))))).
Defined.

(** X12: a message that is not an "XT" event, a message without a
    timestamp and a message whose conditions list is empty push no
    trade. *)
Theorem process_message_drops :
  forall rt msg,
    is_XT (get msg "event_type") = false
    \/ dict_get msg "timestamp" = None
    \/ dict_get msg "conditions" = Some (PyList []) ->
    _process_message rt msg = None.
Proof.
  intros rt msg H. unfold _process_message.
  destruct (is_XT (get msg "event_type")) eqn:Hx; [ | reflexivity ].
  destruct H as [H | [H | H]]; [ discriminate | | ].
  - assert (Hg : get msg "timestamp" = PyNone)
      by (unfold get; now rewrite H).
    rewrite Hg. reflexivity.
  - assert (Hg : get_default msg "conditions" (PyList [PyInt 0]) = PyList [])
      by (unfold get_default; now rewrite H).
    rewrite Hg. cbn [py_first].
    repeat match goal with
           | |- bind ?e _ = None =>
               destruct e; [ cbn [bind] | reflexivity ]
           end.
    reflexivity.
Qed.

Lemma process_message_drops_witness :
  _process_message sample_runtime
    [ ("event_type"%string, PyStr "XT"); ("price"%string, PyFloat 1);
      ("size"%string, PyFloat 1); ("timestamp"%string, PyInt 0);
      ("conditions"%string, PyList []) ] = None.
Proof.
  apply process_message_drops. right. right. reflexivity.
Defined.

(** ** Batches of messages *)

Lemma handle_messages_app :
  forall rt running msgs1 msgs2,
    _handle_messages rt running (msgs1 ++ msgs2)
    = _handle_messages rt running msgs1 ++ _handle_messages rt running msgs2.
Proof.
  intros rt running msgs1 msgs2. unfold _handle_messages.
  destruct running; cbn [negb]; [ apply flat_map_app | reflexivity ].
Qed.

(** X3: a batch pushes, in message order, the trades of the messages
    that decode; a message that is no trade or that raises is skipped
    and changes nothing for the messages around it; an adapter that is
    not running pushes nothing. *)
Theorem handle_messages_isolates_failures :
  forall rt running msgs1 m msgs2,
    _handle_messages rt running (msgs1 ++ m :: msgs2)
    = _handle_messages rt running msgs1
      ++ (if running then opt_list (_process_message rt m) else [])
      ++ _handle_messages rt running msgs2
    /\ (_process_message rt m = None ->
        _handle_messages rt running (msgs1 ++ m :: msgs2)
        = _handle_messages rt running (msgs1 ++ msgs2))
    /\ _handle_messages rt false (msgs1 ++ m :: msgs2) = []
    /\ (List.length (_handle_messages rt running (msgs1 ++ m :: msgs2))
        <= List.length (msgs1 ++ m :: msgs2))%nat.
Proof.
  intros rt running msgs1 m msgs2.
  assert (Hone : _handle_messages rt running [m]
                 = if running then opt_list (_process_message rt m) else []).
  { unfold _handle_messages. destruct running; cbn; [ | reflexivity ].
    apply app_nil_r. }
  assert (Hsplit : _handle_messages rt running (msgs1 ++ m :: msgs2)
                   = _handle_messages rt running msgs1
                     ++ (if running then opt_list (_process_message rt m)
                         else [])
                     ++ _handle_messages rt running msgs2).
  { change (m :: msgs2) with ([m] ++ msgs2).
    now rewrite !handle_messages_app, Hone. }
  split; [ exact Hsplit | ]. split; [ | split ].
  - intros Hn. rewrite Hsplit, handle_messages_app, Hn.
    now destruct running.
  - reflexivity.
  - generalize (msgs1 ++ m :: msgs2). intros l. unfold _handle_messages.
    destruct running; cbn [negb]; [ | cbn; lia ].
    induction l as [|x l IH]; [ cbn; lia | ].
    cbn [flat_map]. rewrite length_app.
    destruct (_process_message rt x); cbn in *; lia.
Qed.

(** ** Start and stop of the adapter *)

Lemma calls_snoc :
  forall rt xs x, calls rt (xs ++ [x]) = call_step rt (calls rt xs) x.
Proof. intros. unfold calls. now rewrite fold_left_app. Qed.

Lemma calls_app :
  forall rt xs ys,
    calls rt (xs ++ ys) = fold_left (call_step rt) ys (calls rt xs).
Proof. intros. unfold calls. now rewrite fold_left_app. Qed.

Lemma stopped_stays_silent :
  forall rt ys s,
    _running (fst s) = false ->
    Forall (fun y => y <> Start Connected) ys ->
    _running (fst (fold_left (call_step rt) ys s)) = false
    /\ snd (fold_left (call_step rt) ys s) = snd s.
Proof.
  intros rt ys. induction ys as [|y ys IH]; intros s Hr Hall.
  - split; [ exact Hr | reflexivity ].
  - inversion Hall as [|? ? Hy Hys]. subst. cbn [fold_left].
    assert (Hstep : _running (fst (call_step rt s y)) = false
                    /\ snd (call_step rt s y) = snd s).
    { destruct y as [[]| |msgs]; cbn; try (split; reflexivity).
      - contradiction.
      - rewrite Hr. unfold _handle_messages. cbn.
        split; [ reflexivity | apply app_nil_r ]. }
    destruct Hstep as [Hr' Hs'].
    destruct (IH (call_step rt s y) Hr' Hys) as [H1 H2].
    split; [ exact H1 | now rewrite H2 ].
Qed.

(** X4: once [stop] has been called, and likewise before any [start], no
    message is pushed until a [start] sets the connection up (a [start]
    that fails leaves the adapter stopped); and calling [stop] twice is
    the same as calling it once. *)
Theorem adapter_pushes_only_while_running :
  forall rt xs ys,
    Forall (fun y => y <> Start Connected) ys ->
    snd (calls rt (xs ++ Stop :: ys)) = snd (calls rt xs)
    /\ _running (fst (calls rt (xs ++ Stop :: ys))) = false
    /\ snd (calls rt ys) = []
    /\ calls rt (xs ++ [Stop; Stop]) = calls rt (xs ++ [Stop]).
Proof.
  intros rt xs ys Hall. repeat split.
  - rewrite calls_app. cbn [fold_left].
    destruct (stopped_stays_silent rt ys (call_step rt (calls rt xs) Stop)
                eq_refl Hall) as [_ H].
    exact H.
  - rewrite calls_app. cbn [fold_left].
    now destruct (stopped_stays_silent rt ys
                    (call_step rt (calls rt xs) Stop) eq_refl Hall).
  - unfold calls.
    now destruct (stopped_stays_silent rt ys (adapter_init, [])
                    eq_refl Hall).
  - rewrite !calls_app. reflexivity.
Qed.

Lemma adapter_pushes_only_while_running_witness :
  snd (calls sample_runtime
         ([Start Connected; Messages [sample_message]]
          ++ Stop :: [Messages [sample_message]; Start SubscribeFails;
                      Messages [sample_message]]))
  = snd (calls sample_runtime [Start Connected; Messages [sample_message]]).
Proof.
  refine (proj1 (adapter_pushes_only_while_running sample_runtime
                   [Start Connected; Messages [sample_message]]
                   [Messages [sample_message]; Start SubscribeFails;
                    Messages [sample_message]] _)).
  repeat constructor; discriminate.
Defined.

(** ** More on the runs of the graph *)

Lemma registry_step_cases :
  forall e c k st',
    In (k, st') (registry (crypto_multi_ticker_websocket_pipeline e c)) ->
    exists st,
      st' = fst (ticker_statistics_subgraph st (dynamic.attach k (push c))
                   (csp.timer (seconds 1) (starttime e) (now c))
                   (csp.timer (minutes 1) (starttime e) (now c))
                   (feeds c k) (now c))
      /\ (In (k, st) (registry e)
          \/ (st = new_pipeline k (now c)
              /\ ~ In k (keys (registry e))
              /\ exists tr, push c = Some tr /\ CryptoTradeData.pair tr = k)).
Proof.
  intros e c k st' Hin. rewrite registry_step in Hin.
  apply in_map_iff in Hin. destruct Hin as ([k0 st] & Heq & Hin).
  cbn [fst snd] in Heq. injection Heq as -> Hst. exists st.
  split; [ now symmetry | ].
  apply demultiplex_In in Hin.
  destruct Hin as [Hin | (tr & Hp & Heq & Hn)]; [ now left | right ].
  injection Heq as -> ->. repeat split; [ exact Hn | now exists tr ].
Qed.

Lemma registry_step_keeps :
  forall e c k st,
    In (k, st) (registry e) ->
    In (k, fst (ticker_statistics_subgraph st (dynamic.attach k (push c))
                  (csp.timer (seconds 1) (starttime e) (now c))
                  (csp.timer (minutes 1) (starttime e) (now c))
                  (feeds c k) (now c)))
      (registry (crypto_multi_ticker_websocket_pipeline e c)).
Proof.
  intros e c k st Hin. rewrite registry_step.
  apply in_map_iff. exists (k, st). split; [ reflexivity | ].
  unfold dynamic.demultiplex. destruct (push c) as [tr|]; [ | exact Hin ].
  destruct (dynamic.has_key _ _); [ exact Hin | ].
  apply in_or_app. now left.
Qed.

Lemma starttime_run :
  forall e cs, starttime (run e cs) = starttime e.
Proof.
  intros e cs. revert e. induction cs as [|c cs IH]; intros e.
  - reflexivity.
  - cbn [run fold_left]. fold (run (crypto_multi_ticker_websocket_pipeline e c) cs).
    now rewrite IH.
Qed.

Lemma trades_all_run :
  forall start cs, trades_all (run (init start) cs) = latest_pushed cs.
Proof.
  intros start cs. unfold latest_pushed.
  induction cs as [|c cs IH] using rev_ind; [ reflexivity | ].
  rewrite run_snoc, pushed_snoc, rev_app_distr.
  unfold crypto_multi_ticker_websocket_pipeline, edges.
  cbn [trades_all e_trades_all].
  destruct (push c) as [tr|]; [ reflexivity | exact IH ].
Qed.

(** X5: on a tick of the minute timer of the graph the trades table and
    the trades file receive the most recent trade pushed so far, whether
    or not it is new in that minute, and nothing when no trade has
    arrived yet; in every other cycle they receive nothing; so every row
    is a pushed trade. *)
Theorem trades_flow_is_latest_trade :
  forall start cs c,
    e_trades_flow (edges (run (init start) cs) c)
    = (if csp.timer (minutes 1) start (now c)
       then latest_pushed (cs ++ [c])
       else None)
    /\ incl (trades_table (run (init start) cs)) (pushed cs)
    /\ incl (trades_writer (run (init start) cs)) (pushed cs).
Proof.
  assert (Hflow : forall start cs c,
             e_trades_flow (edges (run (init start) cs) c)
             = (if csp.timer (minutes 1) start (now c)
                then latest_pushed (cs ++ [c]) else None)).
  { intros start cs c.
    pose proof (trades_all_run start (cs ++ [c])) as Hall.
    rewrite run_snoc in Hall.
    unfold crypto_multi_ticker_websocket_pipeline in Hall.
    cbn [trades_all] in Hall.
    unfold edges in *. cbn [e_trades_flow e_trades_all] in *.
    rewrite starttime_run. cbn [starttime init]. rewrite Hall.
    unfold trades_tracker.
    destruct (csp.timer (minutes 1) start (now c)); [ | reflexivity ].
    now destruct (latest_pushed (cs ++ [c])). }
  assert (Hincl : forall start cs,
             incl (trades_table (run (init start) cs)) (pushed cs)).
  { intros start cs. induction cs as [|c cs IH] using rev_ind.
    - intros x [].
    - rewrite run_snoc.
      destruct (sinks_step (run (init start) cs) c) as (H1 & _).
      rewrite H1, Hflow, pushed_snoc. intros x Hx.
      apply in_app_or in Hx. destruct Hx as [Hx | Hx].
      + apply in_or_app. left. now apply IH.
      + destruct (csp.timer (minutes 1) start (now c)); [ | destruct Hx ].
        unfold latest_pushed in Hx. rewrite pushed_snoc in Hx.
        destruct (rev (pushed cs ++ opt_list (push c))) as [|y l] eqn:Hr;
          [ destruct Hx | ].
        destruct Hx as [<- | []]. apply in_rev. rewrite Hr. now left. }
  intros start cs c. split; [ apply Hflow | ]. split; [ apply Hincl | ].
  destruct (sinks_run start cs) as [-> _]. apply Hincl.
Qed.

Lemma pipeline_created_at_first_trade :
  forall start cs k st,
    In (k, st) (registry (run (init start) cs)) ->
    option_map fst (hd_error (ps_trades st)) = Some (ps_created st).
Proof.
  intros start cs. induction cs as [|c cs IH] using rev_ind;
    intros k st' Hin; [ destruct Hin | ].
  rewrite run_snoc in Hin. apply registry_step_cases in Hin.
  destruct Hin as (st & -> & Hcase).
  match goal with
  | |- context [ticker_statistics_subgraph ?s ?x ?a ?b ?f ?t] =>
      destruct (subgraph_state s x a b f t) as (_ & Sc & St & _)
  end.
  rewrite Sc, St.
  destruct Hcase as [Hold | (-> & _ & tr & Hp & Hk)].
  - specialize (IH k st Hold).
    destruct (ps_trades st) as [|x l]; [ discriminate | ].
    unfold append_tick. now destruct (dynamic.attach k (push c)).
  - assert (Ha : dynamic.attach k (push c) = Some tr)
      by (apply attach_Some; auto).
    rewrite Ha. reflexivity.
Qed.

(** X6: the minute timer of a pipeline is anchored at the first trade of
    its key: every record is emitted a whole, positive number of minutes
    after the engine time of that first trade, hence never during the
    first minute of a key. *)
Theorem first_record_after_one_minute :
  forall start cs c,
    Forall
      (fun kr =>
         forall r, snd (snd kr) = Some r ->
           exists t0 tr rest,
             trades_of (fst kr) (cs ++ [c]) = (t0, tr) :: rest
             /\ minutes 1 <= now c - t0
             /\ (now c - t0) mod minutes 1 = 0)
      (e_ran (edges (run (init start) cs) c)).
Proof.
  intros start cs c. apply Forall_forall. intros [k [st' out]] Hin r Hr.
  cbn [fst snd] in *. subst out.
  pose proof (e_ran_registry _ _ _ _ _ Hin) as Hreg.
  rewrite <- run_snoc in Hreg.
  destruct (reached_pipeline_ok _ _ _ _ Hreg) as (_ & Htr & _).
  cbn [fst snd] in Htr.
  pose proof (pipeline_created_at_first_trade _ _ _ _ Hreg) as Hfirst.
  rewrite Htr in Hfirst.
  destruct (trades_of k (cs ++ [c])) as [|[t0 tr] rest]; [ discriminate | ].
  cbn in Hfirst. injection Hfirst as Hc.
  exists t0, tr, rest. split; [ reflexivity | ].
  destruct (In_e_ran _ _ _ _ _ Hin) as (st & _ & Hstep).
  cbn [fst snd] in Hstep.
  pose proof (f_equal fst Hstep) as Hst. pose proof (f_equal snd Hstep) as Ho.
  cbn [fst snd] in Hst, Ho.
  match type of Ho with
  | snd (ticker_statistics_subgraph ?s ?x ?a ?b ?f ?t) = _ =>
      pose proof (subgraph_out_valid s x a b f t) as Hv;
      destruct (subgraph_state s x a b f t) as (_ & Sc & _)
  end.
  rewrite Ho in Hv. rewrite Hst in Sc. cbn [csp.valid] in Hv.
  symmetry in Hv. apply andb_true_iff in Hv. destruct Hv as [Ht _].
  unfold csp.timer in Ht. apply andb_true_iff in Ht.
  destruct Ht as [Hlt Hmod]. apply Z.ltb_lt in Hlt. apply Z.eqb_eq in Hmod.
  rewrite <- Sc, <- Hc in Hlt, Hmod. split; [ | exact Hmod ].
  change (minutes 1) with 60000000 in *.
  pose proof (Z.div_mod (now c - t0) 60000000 ltac:(lia)) as Hdm. lia.
Qed.

(** X7: pipelines are never removed: a pipeline registered at some point
    of a run is still registered under the same key at every later
    point, with the same creation time, its earlier trades as a prefix
    of its trades, and [trade_count], [volumn_60s] and its last record
    still defined if they were. *)
Theorem pipelines_persist :
  forall start cs1 cs2,
    Forall
      (fun kv =>
         exists st',
           In (fst kv, st') (registry (run (init start) (cs1 ++ cs2)))
           /\ ps_pair st' = ps_pair (snd kv)
           /\ ps_created st' = ps_created (snd kv)
           /\ (exists l, ps_trades st' = ps_trades (snd kv) ++ l)
           /\ (csp.valid (ps_trade_count (snd kv)) = true ->
               csp.valid (ps_trade_count st') = true)
           /\ (csp.valid (ps_volumn_sum_1min (snd kv)) = true ->
               csp.valid (ps_volumn_sum_1min st') = true)
           /\ (csp.valid (ps_out (snd kv)) = true ->
               csp.valid (ps_out st') = true))
      (registry (run (init start) cs1)).
Proof.
  intros start cs1 cs2. apply Forall_forall. intros [k st] Hin.
  cbn [fst snd]. induction cs2 as [|c cs2 IH] using rev_ind.
  - rewrite app_nil_r. exists st. repeat split; auto.
    exists []. now rewrite app_nil_r.
  - destruct IH as (st1 & H1 & Hp & Hc & (l & Ht) & Hn & Hv & Ho).
    rewrite app_assoc, run_snoc.
    pose proof (registry_step_keeps _ c _ _ H1) as Hk.
    match type of Hk with
    | In (_, fst (ticker_statistics_subgraph ?s ?x ?a ?b ?f ?t)) _ =>
        destruct (subgraph_state s x a b f t) as (Sp & Sc & St & So);
        set (st2 := fst (ticker_statistics_subgraph s x a b f t)) in *
    end.
    exists st2. split; [ exact Hk | ].
    split; [ congruence | ]. split; [ congruence | ]. split; [ | split; [ | split ] ].
    + rewrite St, Ht. unfold append_tick.
      destruct (dynamic.attach k (push c)) as [tr|].
      * exists (l ++ [(now c, tr)]). now rewrite app_assoc.
      * now exists l.
    + intros H. specialize (Hn H). unfold st2, ticker_statistics_subgraph.
      cbn [fst ps_trade_count]. unfold stats.on_trigger.
      destruct (csp.timer _ _ _); [ | exact Hn ].
      destruct (stats.count _ _ _ _ _); [ reflexivity | exact Hn ].
    + intros H. specialize (Hv H). unfold st2, ticker_statistics_subgraph.
      cbn [fst ps_volumn_sum_1min]. unfold stats.on_trigger.
      destruct (csp.timer _ _ _); [ | exact Hv ].
      destruct (stats.sum _ _ _ _ _); [ reflexivity | exact Hv ].
    + intros H. specialize (Ho H). rewrite So.
      destruct (snd _); [ reflexivity | exact Ho ].
Qed.

(** ** Records in the sinks *)



(** ** Warm-up of the rolling statistics, in general *)

(** X9: as long as every cycle of a run happens less than five seconds
    after the creation of a pipeline, its [volumn_60s] has no value, and
    less than one second after, its [trade_count] has none either. *)
Theorem rolling_statistics_warm_up :
  forall start cs,
    Forall
      (fun kv =>
         (Forall (fun c => now c - ps_created (snd kv) < seconds 5) cs ->
          ps_volumn_sum_1min (snd kv) = None)
         /\ (Forall (fun c => now c - ps_created (snd kv) < seconds 1) cs ->
             ps_trade_count (snd kv) = None))
      (registry (run (init start) cs)).
Proof.
  intros start cs. apply Forall_forall.
  induction cs as [|c cs IH] using rev_ind; intros [k st'] Hin;
    [ destruct Hin | ].
  cbn [fst snd]. rewrite run_snoc in Hin. apply registry_step_cases in Hin.
  destruct Hin as (st & -> & Hcase).
  match goal with
  | |- context [ticker_statistics_subgraph ?s ?x ?a ?b ?f ?t] =>
      destruct (subgraph_state s x a b f t) as (_ & Sc & _)
  end.
  rewrite Sc.
  assert (Hprev : (Forall (fun c => now c - ps_created st < seconds 5) cs ->
                   ps_volumn_sum_1min st = None)
                  /\ (Forall (fun c => now c - ps_created st < seconds 1) cs ->
                      ps_trade_count st = None)).
  { destruct Hcase as [Hold | (-> & _)].
    - exact (IH (k, st) Hold).
    - split; reflexivity. }
  destruct Hprev as [Pv Pc]. split; intros Hall;
    apply Forall_app in Hall; destruct Hall as [Hcs Hc];
    inversion Hc as [|? ? Hnow _]; subst.
  - apply volumn_sum_1min_needs_5s; [ now apply Pv | exact Hnow ].
  - specialize (Pc Hcs). unfold ticker_statistics_subgraph.
    cbn [fst ps_trade_count].
    unfold stats.on_trigger, stats.count, stats.min_hit.
    destruct (Z.leb_spec (seconds 1) (now c - ps_created st)); [ lia | ].
    rewrite Pc. now destruct (csp.timer _ _ _).
Qed.

(** ** Exact values of the two ratios *)

Lemma positive_finite_SF :
  forall x : float,
    PrimFloat.ltb 0 x = true -> PrimFloat.ltb x infinity = true ->
    exists m e, Prim2SF x = S754_finite false m e.
Proof.
  intros x H0 H1. rewrite ltb_spec in H0, H1.
  change (Prim2SF 0) with (S754_zero false) in H0.
  change (Prim2SF infinity) with (S754_infinity false) in H1.
  destruct (Prim2SF x) as [s|[]| |[] m e]; try discriminate.
  now exists m, e.
Qed.

Lemma zero_SF :
  forall z : float,
    PrimFloat.eqb z 0 = true -> exists s, Prim2SF z = S754_zero s.
Proof.
  intros z H. rewrite eqb_spec in H.
  change (Prim2SF 0) with (S754_zero false) in H.
  destruct (Prim2SF z) as [s|[]| |[] m e]; try discriminate.
  now exists s.
Qed.

Lemma SFdiv_self :
  forall m e,
    SFdiv prec emax (S754_finite false m e) (S754_finite false m e)
    = S754_finite false 4503599627370496 (-52).
Proof.
  intros m e. unfold SFdiv, SFdiv_core_binary. cbn [Zdigits2 xorb].
  replace (Zpos (digits2_pos m) + e - (Zpos (digits2_pos m) + e)) with 0
    by lia.
  replace (e - e) with 0 by lia.
  change (Z.min (SpecFloat.fexp prec emax 0) 0) with (-53).
  change (0 - -53) with 53.
  rewrite Z.shiftl_mul_pow2 by lia.
  assert (Hq : (Zpos m * 2 ^ 53) / Zpos m = 2 ^ 53).
  { rewrite Z.mul_comm. apply Z.div_mul. lia. }
  assert (Hr : (Zpos m * 2 ^ 53) mod Zpos m = 0).
  { rewrite Z.mul_comm. apply Z.mod_mul. lia. }
  unfold Z.div in Hq. unfold Z.modulo in Hr.
  destruct (Z.div_eucl (Zpos m * 2 ^ 53) (Zpos m)) as [q r].
  subst q r. rewrite new_location_zero. reflexivity.
Qed.

(** X10: when the mean price is the same positive finite number now and
    a minute ago, [return_1min] is exactly zero. *)
Theorem flat_price_gives_zero_return :
  forall x : float,
    PrimFloat.ltb 0 x = true -> PrimFloat.ltb x infinity = true ->
    return_1min_of (Some x) (Some x) = Some 0%float.
Proof.
  intros x H0 H1. destruct (positive_finite_SF x H0 H1) as (m & e & Hx).
  unfold return_1min_of, csp.diff, csp.divide, csp.add, csp.sub, csp.lift2.
  f_equal. apply Prim2SF_inj.
  rewrite div_spec, add_spec, sub_spec, Hx.
  unfold SF64sub, SFsub. rewrite Z.sub_diag. reflexivity.
Qed.

Lemma flat_price_gives_zero_return_witness :
  return_1min_of (Some 100%float) (Some 100%float) = Some 0%float.
Proof.
  exact (flat_price_gives_zero_return 100%float eq_refl eq_refl).
Defined.

(** X11: when the sell sum is zero and the buy sum is positive and
    finite, [buy_pressure] is exactly 1; when the buy sum is zero and
    the sell sum is positive and finite, it is zero. *)
Theorem buy_pressure_endpoints :
  forall b z : float,
    PrimFloat.ltb 0 b = true -> PrimFloat.ltb b infinity = true ->
    PrimFloat.eqb z 0 = true ->
    buy_pressure_of (Some b) (Some z) = Some 1%float
    /\ exists v,
         buy_pressure_of (Some z) (Some b) = Some v
         /\ PrimFloat.eqb v 0 = true.
Proof.
  intros b z H0 H1 Hz.
  destruct (positive_finite_SF b H0 H1) as (m & e & Hb).
  destruct (zero_SF z Hz) as (s & Hs).
  rewrite !buy_pressure_of_eq. split.
  - f_equal. apply Prim2SF_inj. rewrite div_spec, add_spec, Hb, Hs.
    unfold SF64add. cbn [SFadd]. unfold SF64div. rewrite SFdiv_self.
    reflexivity.
  - eexists. split; [ reflexivity | ].
    rewrite eqb_spec, div_spec, add_spec, Hb, Hs.
    unfold SF64add. cbn [SFadd]. unfold SF64div. cbn [SFdiv].
    reflexivity.
Qed.

Lemma buy_pressure_endpoints_witness :
  buy_pressure_of (Some 900%float) (Some 0%float) = Some 1%float.
Proof.
  exact (proj1 (buy_pressure_endpoints 900%float 0%float
                  eq_refl eq_refl eq_refl)).
Defined.
